(** * BasePaint tracker: wallet hook, marketplace client and enrichment pipeline

    A shallow embedding of the TypeScript hooks [useWallet] and [useOpenSea]
    and of the confirm handlers of the [CanvasList] component, with the
    properties the specification states about them.

    Conventions.
    - An optional property ([listPrice?: number]) is an [option]; [None] is
      JavaScript's [undefined].
    - The wallet provider, the marketplace REST API and the marketplace SDK
      are external: they appear as oracles (functions giving the answer to
      each request), and every theorem quantifies over them.
    - Objects and arrays that the code shares by reference live in an
      explicit heap; see the section on the enrichment pipeline. *)

From Stdlib Require Import ZArith QArith String List Lia DecimalString.
From stdpp Require Import base gmap list strings.

Open Scope string_scope.
Open Scope list_scope.

(** ** JavaScript values shared by all modules *)

(** JavaScript truthiness of a string that may be [undefined]/[null]:
    only a non-empty string is truthy. *)
Definition truthy (s : option string) : bool :=
  match s with
  | Some (String _ _) => true
  | _ => false
  end.

(** What a [catch] clause can receive. [ThrowNullish] is a rejection with
    [undefined] or [null]; any other thrown value is seen by the code only
    through its [code] and [message] properties. [code] is [Some z] when the
    property is the number [z]; [message] is [Some s] when it is the string
    [s]. *)
Inductive Thrown :=
| ThrowNullish
| ThrowObject (code : option Z) (message : option string).

(** [new Error(msg)] *)
Definition Error (msg : string) : Thrown := ThrowObject None (Some msg).

(** The [TypeError] raised by reading property [prop] of [undefined]. *)
Definition TypeError (prop : string) : Thrown :=
  ThrowObject None
    (Some ("Cannot read properties of undefined (reading '" +:+ prop +:+ "')")).

(** [err.message || fallback] for a non-nullish [err]. *)
Definition messageOr (message : option string) (fallback : string) : string :=
  match message with
  | Some (String c s) => String c s
  | _ => fallback
  end.

(** ** The wallet adapter: [useWallet] *)

Module Wallet.

Definition BASE_CHAIN_ID : string := "0x2105".

Record NativeCurrency := {
  nc_name : string;
  nc_symbol : string;
  nc_decimals : Z;
}.

Record ChainConfig := {
  chainId : string;
  chainName : string;
  rpcUrls : list string;
  blockExplorerUrls : list string;
  nativeCurrency : NativeCurrency;
}.

Definition BASE_CHAIN_CONFIG : ChainConfig := {|
  chainId := BASE_CHAIN_ID;
  chainName := "Base";
  rpcUrls := ["https://mainnet.base.org"];
  blockExplorerUrls := ["https://basescan.org"];
  nativeCurrency := {| nc_name := "Ether"; nc_symbol := "ETH"; nc_decimals := 18 |};
|}.

(** The argument of [provider.request]: the method with its parameters. *)
Inductive Request :=
| eth_accounts
| eth_requestAccounts
| eth_chainId
| wallet_switchEthereumChain (chain : string)
| wallet_addEthereumChain (cfg : ChainConfig).

(** The values a request resolves to, as far as the hook inspects them. *)
Inductive Value :=
| VUndefined
| VString (s : string)
| VStrings (l : list string).

#[global] Instance Value_eq_dec : EqDecision Value.
Proof. solve_decision. Defined.

Inductive Response :=
| Resolve (v : Value)
| Reject (e : Thrown).

(** An EIP-1193 provider, seen through [request]. One run of the hook's
    operations sends each request at most once, so a function of the
    request describes any provider, stateful ones included. *)
Definition Provider := Request -> Response.

(** The host environment: the frame wallet [sdk?.wallet?.ethProvider] and
    the injected [window.ethereum]. *)
Record Env := {
  ethProvider : option Provider;
  ethereum : option Provider;
}.

(** The React state of the hook. *)
Record WalletState := {
  address : option string;
  isConnecting : bool;
  error : option string;
}.

(** The hook's state together with the requests sent to the provider. *)
Record World := {
  hook : WalletState;
  log : list Request;
}.

(** Computations that read and write the world and may throw. *)
Definition M (A : Type) : Type := World -> (Thrown + A) * World.

Definition ret {A} (a : A) : M A := fun w => (inr a, w).

Definition throw {A} (e : Thrown) : M A := fun w => (inl e, w).

Definition bind {A B} (m : M A) (k : A -> M B) : M B :=
  fun w =>
    match m w with
    | (inr a, w') => k a w'
    | (inl e, w') => (inl e, w')
    end.

#[global] Instance M_ret : MRet M := @ret.
#[global] Instance M_bind : MBind M := fun A B k m => bind m k.

(** [try { body } catch (err) { handler err }] *)
Definition try_catch {A} (body : M A) (handler : Thrown -> M A) : M A :=
  fun w =>
    match body w with
    | (inr a, w') => (inr a, w')
    | (inl e, w') => handler e w'
    end.

(** [try { body } finally { final }]: [final] runs on both exits, and what
    [body] returned or threw is kept unless [final] itself throws. *)
Definition try_finally {A} (body : M A) (final : M unit) : M A :=
  fun w =>
    match body w with
    | (r, w') =>
        match final w' with
        | (inr _, w'') => (r, w'')
        | (inl e, w'') => (inl e, w'')
        end
    end.

Definition setAddress (a : option string) : M unit :=
  fun w => (inr tt, {| hook := {| address := a;
                                  isConnecting := isConnecting (hook w);
                                  error := error (hook w) |};
                       log := log w |}).

Definition setIsConnecting (b : bool) : M unit :=
  fun w => (inr tt, {| hook := {| address := address (hook w);
                                  isConnecting := b;
                                  error := error (hook w) |};
                       log := log w |}).

Definition setError (e : option string) : M unit :=
  fun w => (inr tt, {| hook := {| address := address (hook w);
                                  isConnecting := isConnecting (hook w);
                                  error := e |};
                       log := log w |}).

(** [await provider.request(r)]: the request is recorded, then the
    provider's answer is returned or thrown. *)
Definition request (provider : Provider) (r : Request) : M Value :=
  fun w =>
    let w' := {| hook := hook w; log := log w ++ [r] |} in
    match provider r with
    | Resolve v => (inr v, w')
    | Reject e => (inl e, w')
    end.

(** [sdk?.wallet?.ethProvider || window.ethereum] *)
Definition getProvider (env : Env) : option Provider :=
  match ethProvider env with
  | Some p => Some p
  | None => ethereum env
  end.

(** [err.code] and [err.message]: reading a property of [undefined]
    throws a [TypeError]. *)
Definition get_code (err : Thrown) : M (option Z) :=
  match err with
  | ThrowNullish => throw (TypeError "code")
  | ThrowObject code _ => ret code
  end.

Definition get_message (err : Thrown) : M (option string) :=
  match err with
  | ThrowNullish => throw (TypeError "message")
  | ThrowObject _ message => ret message
  end.

(** [accounts && accounts.length > 0], then [accounts[0]]. Of a string,
    [accounts[0]] is its first character. *)
Definition firstAccount (accounts : Value) : option string :=
  match accounts with
  | VStrings (a :: _) => Some a
  | VString (String c _) => Some (String c EmptyString)
  | _ => None
  end.


Definition connect (env : Env) : M unit :=
  setIsConnecting true ;;
  setError None ;;
  match getProvider env with
  | None =>
      setError (Some "No wallet found. Open in a crypto-enabled browser.") ;;
      setIsConnecting false ;;
      ret tt
  | Some provider =>
      try_finally
        (try_catch
           (accounts ← request provider eth_requestAccounts;
            match firstAccount accounts with
            | Some a => setAddress (Some a)
            | None => ret tt
            end ;;
            currentChainId ← request provider eth_chainId;
            if decide (currentChainId = VString BASE_CHAIN_ID) then ret tt
            else
              try_catch
                (request provider (wallet_switchEthereumChain BASE_CHAIN_ID) ;;
                 ret tt)
                (fun switchError =>
                   code ← get_code switchError;
                   if decide (code = Some 4902%Z) then
                     request provider (wallet_addEthereumChain BASE_CHAIN_CONFIG) ;;
                     ret tt
                   else ret tt))
           (fun err =>
              message ← get_message err;
              setError (Some (messageOr message "Failed to connect"))))
        (setIsConnecting false)
  end.

Definition disconnect : M unit := setAddress None.

(** Classifiers used to state the properties of the request log. *)
Definition is_switch (r : Request) : bool :=
  match r with wallet_switchEthereumChain _ => true | _ => false end.

Definition is_add (r : Request) : bool :=
  match r with wallet_addEthereumChain _ => true | _ => false end.

(** The provider's answer to the switch request is a rejection whose
    [code] is the number 4902 (chain unknown to the wallet). *)
Definition unknown_chain (r : Response) : bool :=
  match r with
  | Reject (ThrowObject code _) => bool_decide (code = Some 4902%Z)
  | _ => false
  end.

(** A provider that never rejects with [undefined] or [null]. *)
Definition rejects_with_objects (p : Provider) : Prop :=
  forall r, p r <> Reject ThrowNullish.

(** A human-readable error: a string that is not empty. *)
Definition readable (e : option string) : Prop :=
  exists c s, e = Some (String c s).

(** The requests [m] adds to the log when run from [w]. *)
Definition issued {A} (m : M A) (w : World) : list Request :=
  drop (length (log w)) (log (snd (m w))).

(** Something failed during [connect]: there was no provider, or one of the
    requests that [connect] sent was rejected. *)
Definition failure_during_connect (env : Env) (w : World) : Prop :=
  getProvider env = None \/
  exists p r e,
    getProvider env = Some p /\ r ∈ issued (connect env) w /\ p r = Reject e.

(** Unfolds [connect] down to the provider's answers. *)
Ltac run_connect :=
  unfold connect, issued, try_finally, try_catch, mbind, M_bind, bind, mret, M_ret, ret,
    request, setAddress, setError, setIsConnecting, get_code, get_message, throw;
  simpl.

(** *** Concrete providers *)

Definition fresh_hook : World :=
  {| hook := {| address := None; isConnecting := false; error := None |}; log := [] |}.

(** A wallet on Ethereum mainnet that does not know Base: the switch is
    rejected with code 4902 and the chain is then added. *)
Definition mainnet_wallet : Provider := fun r =>
  match r with
  | eth_accounts => Resolve (VStrings [])
  | eth_requestAccounts => Resolve (VStrings ["0x52908400098527886E0F7030069857D2E4169EE7"])
  | eth_chainId => Resolve (VString "0x1")
  | wallet_switchEthereumChain _ =>
      Reject (ThrowObject (Some 4902%Z) (Some "Unrecognized chain ID"))
  | wallet_addEthereumChain _ => Resolve VUndefined
  end.

(** The same wallet when adding the chain is refused as well. *)
Definition refusing_wallet : Provider := fun r =>
  match r with
  | wallet_addEthereumChain _ =>
      Reject (ThrowObject (Some 4001%Z) (Some "User rejected the request."))
  | _ => mainnet_wallet r
  end.

(** A wallet whose user declines the switch to Base (code 4001). *)
Definition declining_wallet : Provider := fun r =>
  match r with
  | wallet_switchEthereumChain _ =>
      Reject (ThrowObject (Some 4001%Z) (Some "User rejected the request."))
  | _ => mainnet_wallet r
  end.

Definition injected (p : Provider) : Env :=
  {| ethProvider := None; ethereum := Some p |}.

End Wallet.

(** ** Numbers and canvas items *)

(** A JavaScript number as the hooks use it: a price or a day, or [NaN].
    Rationals stand for the finite doubles; no theorem below depends on
    rounding, since the code only stores, compares with zero and prints
    these numbers. *)
Inductive number :=
| NaN
| Num (q : Q).

Definition zero : number := Num 0.

Definition isNaN (n : number) : bool :=
  match n with NaN => true | Num _ => false end.

(** [n <= 0]; a comparison with [NaN] is false. *)
Definition le_zero (n : number) : bool :=
  match n with NaN => false | Num q => Qle_bool q 0 end.

(** [n > 0] *)
Definition gt_zero (n : number) : bool :=
  match n with NaN => false | Num q => negb (Qle_bool q 0) end.

(** The conversions the code takes from the JavaScript runtime and from
    [ethers]. They are parameters of the development. *)
Class JsRuntime := {
  (** [parseInt(s, 10)] *)
  parseInt : string -> number;
  (** [Number(s)] *)
  Number : string -> number;
  (** a number inside a template literal, [n.toString()] *)
  toString : number -> string;
  (** [parseFloat(ethers.formatUnits(raw, decimals))]; [None] when
      [formatUnits] throws *)
  formatUnitsFloat : string -> Z -> option number;
}.

(** [CanvasItem], with the two offer properties that the hooks add. *)
Record CanvasItem := {
  id : string;
  day : number;
  imageUrl : string;
  lastSale : number;
  listPrice : option number;
  bestOffer : number;
  isListed : option bool;
  bestOfferOrderHash : option string;
  bestOfferProtocolAddress : option string;
}.



(** [hay.includes(needle)] *)
Fixpoint includes (needle hay : string) : bool :=
  String.prefix needle hay
  || match hay with
     | EmptyString => false
     | String _ rest => includes needle rest
     end.

(** ** The portfolio list: confirm handlers of [CanvasList] *)

Module CanvasList.

Inductive ModalType := list_modal | accept_modal.

Record Modal := {
  type : ModalType;
  item : CanvasItem;
}.

Record Duration := {
  label : string;
  days : Z;
}.

Definition DURATION_OPTIONS : list Duration :=
  [ {| label := "1 day"; days := 1 |};
    {| label := "3 days"; days := 3 |};
    {| label := "1 month"; days := 30 |};
    {| label := "6 months"; days := 180 |} ].

(** The component's React state, as one render sees it. *)
Record State := {
  items : list CanvasItem;
  activeModal : option Modal;
  listingPrice : string;
  listingDuration : Duration;
  isProcessing : bool;
  processingStep : string;
}.

Inductive ToastKind := success | error.

(** Everything a handler does outside the component's own state. *)
Inductive Effect :=
| ShowToast (msg : string) (kind : ToastKind)
| Connect
| CreateListing (account tokenId : string) (price : number) (durationDays : Z)
| FulfillOffer (account orderHash protocolAddress : string)
| OpenUrl (url : string)
| WindowOpen (url : string).

(** The calls that reach the network or the wallet provider. *)
Definition is_external_call (e : Effect) : bool :=
  match e with
  | ShowToast _ _ => false
  | _ => true
  end.

(** What surrounds one run of a handler: the address given by [useWallet],
    whether a provider is available, and how the awaited calls end. *)
Record Context := {
  address : option string;
  provider_found : bool;
  createListing_result : Thrown + unit;
  fulfillOffer_result : Thrown + string;
  openUrl_resolves : bool;
}.

Definition setItems (f : list CanvasItem -> list CanvasItem) (st : State) : State :=
  {| items := f (items st); activeModal := activeModal st;
     listingPrice := listingPrice st; listingDuration := listingDuration st;
     isProcessing := isProcessing st; processingStep := processingStep st |}.

Definition setActiveModal (m : option Modal) (st : State) : State :=
  {| items := items st; activeModal := m;
     listingPrice := listingPrice st; listingDuration := listingDuration st;
     isProcessing := isProcessing st; processingStep := processingStep st |}.

Definition setListingPrice (p : string) (st : State) : State :=
  {| items := items st; activeModal := activeModal st;
     listingPrice := p; listingDuration := listingDuration st;
     isProcessing := isProcessing st; processingStep := processingStep st |}.

Definition setIsProcessing (b : bool) (st : State) : State :=
  {| items := items st; activeModal := activeModal st;
     listingPrice := listingPrice st; listingDuration := listingDuration st;
     isProcessing := b; processingStep := processingStep st |}.

Definition setProcessingStep (step : string) (st : State) : State :=
  {| items := items st; activeModal := activeModal st;
     listingPrice := listingPrice st; listingDuration := listingDuration st;
     isProcessing := isProcessing st; processingStep := step |}.

(** [closeModal] reads [isProcessing] from the render that created the
    handler ([rendered]) and updates the state being built ([st]). *)
Definition closeModal (rendered st : State) : State :=
  if isProcessing rendered then st
  else setProcessingStep "" (setListingPrice "" (setActiveModal None st)).

(** [err?.message?.includes('rejected') ? cancelled : (err?.message || fallback)] *)
Definition failure_message (err : Thrown) (cancelled fallback : string) : string :=
  match err with
  | ThrowNullish => fallback
  | ThrowObject _ None => fallback
  | ThrowObject _ (Some m) =>
      if includes "rejected" m then cancelled else messageOr (Some m) fallback
  end.

(** The [finally] block of both handlers. *)
Definition finish (st : State) : State :=
  setProcessingStep "" (setIsProcessing false st).

Section Handlers.
Context `{JsRuntime}.

Definition handleListConfirm (ctx : Context) (st : State) : State * list Effect :=
  match activeModal st, truthy (address ctx) with
  | _, false => (st, [Connect])
  | None, true => (st, [])
  | Some modal, true =>
      let account := default "" (address ctx) in
      if negb (truthy (Some (listingPrice st)))
         || isNaN (Number (listingPrice st))
         || le_zero (Number (listingPrice st))
      then (st, [ShowToast "Please enter a valid price" error])
      else
        let st1 := setIsProcessing true st in
        if negb (provider_found ctx) then
          (finish st1,
           [ShowToast (failure_message (Error "No wallet provider found")
                         "Listing cancelled" "Failed to create listing") error])
        else
          let st2 := setProcessingStep "Waiting for signature..." st1 in
          let call := CreateListing account (id (item modal))
                        (Number (listingPrice st)) (days (listingDuration st)) in
          match createListing_result ctx with
          | inl err =>
              (finish st2,
               [call;
                ShowToast (failure_message err "Listing cancelled"
                             "Failed to create listing") error])
          | inr _ =>
              let st3 :=
                setItems
                  (map (fun it =>
                          if decide (id it = id (item modal)) then
                            {| id := id it; day := day it; imageUrl := imageUrl it;
                               lastSale := lastSale it;
                               listPrice := Some (Number (listingPrice st));
                               bestOffer := bestOffer it;
                               isListed := Some true;
                               bestOfferOrderHash := bestOfferOrderHash it;
                               bestOfferProtocolAddress := bestOfferProtocolAddress it |}
                          else it))
                  st2 in
              (finish (closeModal st st3),
               [call;
                ShowToast ("Listed BasePaint #" +:+ toString (day (item modal))
                           +:+ " for " +:+ listingPrice st +:+ " ETH ✓") success])
          end
  end.

Definition handleAcceptConfirm (ctx : Context) (st : State) : State * list Effect :=
  match activeModal st, truthy (address ctx) with
  | _, false => (st, [Connect])
  | None, true => (st, [])
  | Some modal, true =>
      let account := default "" (address ctx) in
      let item := item modal in
      if negb (truthy (bestOfferOrderHash item))
      then (st, [ShowToast "No valid offer found" error])
      else
        let orderHash := default "" (bestOfferOrderHash item) in
        let protocolAddress := "0x0000000000000068F116a894984e2DB1123eB395" in
        let st1 := setIsProcessing true st in
        if negb (provider_found ctx) then
          (finish st1,
           [ShowToast (failure_message (Error "No wallet provider found")
                         "Transaction cancelled" "Failed to accept offer") error])
        else
          let st2 := setProcessingStep "Sending transaction..." st1 in
          let call := FulfillOffer account orderHash protocolAddress in
          match fulfillOffer_result ctx with
          | inl err =>
              (finish st2,
               [call;
                ShowToast (failure_message err "Transaction cancelled"
                             "Failed to accept offer") error])
          | inr txHash =>
              let st3 :=
                setItems (List.filter (fun it => negb (bool_decide (id it = id item)))) st2 in
              let sold :=
                ShowToast ("Sold BasePaint #" +:+ toString (day item) +:+ " for "
                           +:+ toString (bestOffer item) +:+ " ETH ✓") success in
              let opened :=
                if truthy (Some txHash) then
                  let url := "https://basescan.org/tx/" +:+ txHash in
                  if openUrl_resolves ctx then [OpenUrl url]
                  else [OpenUrl url; WindowOpen url]
                else [] in
              (finish (closeModal st st3), [call; sold] ++ opened)
          end
  end.

End Handlers.

(** The confirm button exists only in a render that has an address (the
    component returns its connect prompt otherwise) and an open modal. *)
Definition confirmable (ctx : Context) (st : State) (modal : Modal) : Prop :=
  truthy (address ctx) = true /\ activeModal st = Some modal.

End CanvasList.

(** ** The marketplace client: [useOpenSea] *)

(** How a loop that waits on the network ends: with a value, with an
    exception, or not within the iterations allowed to the model. *)
Inductive Outcome (A : Type) :=
| Returned (a : A)
| Threw (e : Thrown)
| Unfinished.
Arguments Returned {A} a.
Arguments Threw {A} e.
Arguments Unfinished {A}.

(** An NFT as the owned-token endpoints describe it. *)
Record NftJson := {
  identifier : string;
  contract : option string;
  collection : string;
}.

(** A price object: [value] in base units and [decimals]. *)
Record PriceJson := {
  value : option string;
  decimals : option Z;
}.

(** The answer to [fetch]: the call rejects, or there is a response with
    its [ok] flag and status and with what [res.json()] gives. *)
Inductive HttpResponse (A : Type) :=
| FetchRejected (e : Thrown)
| NotOk (status : string)
| Ok (json : Thrown + A).
Arguments FetchRejected {A} e.
Arguments NotOk {A} status.
Arguments Ok {A} json.

Definition toLowerAscii (c : Ascii.ascii) : Ascii.ascii :=
  let n := Ascii.nat_of_ascii c in
  if (65 <=? n)%nat && (n <=? 90)%nat then Ascii.ascii_of_nat (n + 32) else c.

(** [s.toLowerCase()], on ASCII letters. *)
Fixpoint toLowerCase (s : string) : string :=
  match s with
  | EmptyString => EmptyString
  | String c rest => String (toLowerAscii c) (toLowerCase rest)
  end.

Definition BASEPAINT_NFT_CONTRACT : string := "0xba5e05cb26b78eda3a2f8e3b3814726305dcac83".

Definition COLLECTION_SLUG : string := "basepaint".

Section OwnedTokens.
Context `{JsRuntime}.

(** The item pushed for an owned token by both variants of the fetch. *)
Definition ownedItem (tokenId : string) : CanvasItem :=
  let day := parseInt tokenId in
  {| id := tokenId;
     day := day;
     imageUrl := "https://basepaint.xyz/api/art/image?day=" +:+ toString day;
     lastSale := zero;
     bestOffer := zero;
     listPrice := None;
     isListed := Some false;
     bestOfferOrderHash := None;
     bestOfferProtocolAddress := None |}.

(** The [do ... while] loop of both variants: request the page at the
    cursor, push an item for every NFT that passes [keep], and go on while
    the page carried a cursor and fewer than [cap] results are held.
    [call k req] is what the [k]-th request gives: the page's NFTs and its
    [next] cursor, or an exception. [sent] collects the requests. *)
Section Paginate.
Context {Req : Type}.
Variable mkReq : option string -> Req.
Variable call : nat -> Req -> Thrown + (list NftJson * option string).
Variable keep : NftJson -> bool.
Variable cap : nat.

Fixpoint paginate (fuel : nat) (results : list CanvasItem) (cursor : option string)
    (sent : list Req) : list Req * Outcome (list CanvasItem) :=
  match fuel with
  | O => (sent, Unfinished)
  | S fuel' =>
      let req := mkReq cursor in
      match call (length sent) req with
      | inl e => (sent ++ [req], Threw e)
      | inr (nfts, next) =>
          let results' :=
            results ++ map (fun nft => ownedItem (identifier nft)) (List.filter keep nfts) in
          if truthy next && (length results' <? cap)%nat
          then paginate fuel' results' next (sent ++ [req])
          else (sent ++ [req], Returned results')
      end
  end.

(** The NFTs of the pages that answered the requests [reqs], the first of
    which was request number [off]. *)
Fixpoint pages (off : nat) (reqs : list Req) : list NftJson :=
  match reqs with
  | [] => []
  | req :: rest =>
      match call off req with
      | inr (nfts, _) => nfts
      | inl _ => []
      end ++ pages (S off) rest
  end.

End Paginate.
End OwnedTokens.

(** *** REST variant *)

Module Rest.

Definition CHAIN_NAME : string := "base".

(** [GET /chain/{chain}/account/{address}/nfts] with its search parameters. *)
Record NftsRequest := {
  chain : string;
  account : string;
  limit : string;
  collection_param : string;
  next_param : option string;
}.

Record NftsPage := {
  nfts : option (list NftJson);
  next : option string;
}.

(** [listing.price?.current] of an element of [data.listings]. *)
Record ListingJson := {
  price_current : option PriceJson;
}.

Record OfferJson := {
  price : option PriceJson;
  order_hash : option string;
  protocol_address : option string;
}.

(** The marketplace API: the answer to the [k]-th owned-token request, and
    the answers to the best-listing and best-offer requests sent for the
    item at position [j] with token id [tokenId]. *)
Record Api := {
  nfts_endpoint : nat -> NftsRequest -> HttpResponse NftsPage;
  best_listing_endpoint : nat -> string -> HttpResponse (list ListingJson);
  best_offer_endpoint : nat -> string -> HttpResponse (list OfferJson);
}.


Record ListingData := {
  ld_listPrice : option number;
  ld_isListed : bool;
}.

Record OfferData := {
  od_bestOffer : number;
  od_orderHash : option string;
  od_protocolAddress : option string;
}.

Definition not_listed : ListingData :=
  {| ld_listPrice := None; ld_isListed := false |}.

Definition no_offer : OfferData :=
  {| od_bestOffer := zero; od_orderHash := None; od_protocolAddress := None |}.


Section Client.
Context `{JsRuntime}.

(** The response holds a best listing whose price converts to [p]. *)
Definition listing_at (res : HttpResponse (list ListingJson)) (p : number) : Prop :=
  exists listing rest current raw,
    res = Ok (inr (listing :: rest)) /\
    price_current listing = Some current /\
    value current = Some raw /\ raw <> "" /\
    formatUnitsFloat raw (default 18%Z (decimals current)) = Some p.

(** The response holds a best offer whose price converts to [p]. *)
Definition offer_at (res : HttpResponse (list OfferJson)) (p : number) : Prop :=
  exists offer rest pr raw,
    res = Ok (inr (offer :: rest)) /\
    price offer = Some pr /\
    value pr = Some raw /\ raw <> "" /\
    formatUnitsFloat raw (default 18%Z (decimals pr)) = Some p.

Definition nftsRequest (address : string) (next : option string) : NftsRequest :=
  {| chain := CHAIN_NAME;
     account := address;
     limit := "200";
     collection_param := COLLECTION_SLUG;
     next_param := if truthy next then next else None |}.

(** One pass through the loop body up to [data.next ?? null]. *)
Definition nftsCall (api : Api) (k : nat) (req : NftsRequest)
    : Thrown + (list NftJson * option string) :=
  match nfts_endpoint api k req with
  | FetchRejected e => inl e
  | NotOk status => inl (Error ("OpenSea NFTs error: " +:+ status))
  | Ok (inl e) => inl e
  | Ok (inr data) => inr (default [] (nfts data), next data)
  end.

Definition fetchNFTsByOwner (api : Api) (fuel : nat) (address : string)
    : list NftsRequest * Outcome (list CanvasItem) :=
  paginate (nftsRequest address) (nftsCall api) (fun _ => true) 500 fuel [] None [].

(** [fetchBestListing], applied to the response of its request. The
    [catch] turns every exception into "not listed". *)
Definition fetchBestListing (res : HttpResponse (list ListingJson)) : ListingData :=
  match res with
  | Ok (inr (listing :: _)) =>
      match price_current listing with
      | Some current =>
          if truthy (value current) then
            match formatUnitsFloat (default "" (value current))
                    (default 18%Z (decimals current)) with
            | Some p => {| ld_listPrice := Some p; ld_isListed := true |}
            | None => not_listed
            end
          else not_listed
      | None => not_listed
      end
  | _ => not_listed
  end.

Definition fetchBestOffer (res : HttpResponse (list OfferJson)) : OfferData :=
  match res with
  | Ok (inr (offer :: _)) =>
      match price offer with
      | Some pr =>
          if truthy (value pr) then
            match formatUnitsFloat (default "" (value pr))
                    (default 18%Z (decimals pr)) with
            | Some p => {| od_bestOffer := p;
                           od_orderHash := order_hash offer;
                           od_protocolAddress := protocol_address offer |}
            | None => no_offer
            end
          else no_offer
      | None => no_offer
      end
  | _ => no_offer
  end.

(** The object literal written back by [enrichWithMarketData]. *)
Definition withMarketData (item : CanvasItem) (listingData : ListingData)
    (offerData : OfferData) : CanvasItem :=
  {| id := id item;
     day := day item;
     imageUrl := imageUrl item;
     lastSale := lastSale item;
     listPrice := ld_listPrice listingData;
     isListed := Some (ld_isListed listingData);
     bestOffer := od_bestOffer offerData;
     bestOfferOrderHash := od_orderHash offerData;
     bestOfferProtocolAddress := od_protocolAddress offerData |}.

End Client.
End Rest.

(** *** SDK variant *)

Module Sdk.

Record NftsRequest := {
  account : string;
  limit : Z;
  cursor : option string;
}.

Record NftsPage := {
  nfts : list NftJson;
  next : option string;
}.

(** What [getBestListing] and [getBestOffer] resolve to, as the hook reads
    it: [price?.value], [price?.decimals] and, for an offer, [order_hash]. *)
Record ListingJson := {
  listing_price : option PriceJson;
}.

Record OfferJson := {
  price : option PriceJson;
  order_hash : option string;
}.

(** The SDK's API client: each call rejects or resolves; a best listing or
    offer may resolve to nothing. *)
Record Api := {
  getNFTsByAccount : nat -> NftsRequest -> Thrown + NftsPage;
  getBestOffer : nat -> string -> Thrown + option OfferJson;
  getBestListing : nat -> string -> Thrown + option ListingJson;
}.

Record MarketData := {
  md_bestOffer : number;
  md_listPrice : option number;
  md_isListed : bool;
  md_bestOfferOrderHash : option string;
}.

(** The hook's React state. *)
Record HookState := {
  isLoadingNFTs : bool;
  isLoadingOffers : bool;
  error : option string;
}.

Section Client.
Context `{JsRuntime}.

Definition nftsRequest (address : string) (cursor : option string) : NftsRequest :=
  {| account := address;
     limit := 50;
     cursor := if truthy cursor then cursor else None |}.

Definition nftsCall (api : Api) (k : nat) (req : NftsRequest)
    : Thrown + (list NftJson * option string) :=
  match getNFTsByAccount api k req with
  | inl e => inl e
  | inr page => inr (nfts page, next page)
  end.

(** [nft.contract?.toLowerCase() === BASEPAINT_NFT_CONTRACT.toLowerCase()] *)
Definition isBasePaint (nft : NftJson) : bool :=
  match contract nft with
  | Some c => bool_decide (toLowerCase c = toLowerCase BASEPAINT_NFT_CONTRACT)
  | None => false
  end.

(** The pagination loop inside [fetchOwnedBasePaints]. *)
Definition ownedPages (api : Api) (fuel : nat) (address : string)
    : list NftsRequest * Outcome (list CanvasItem) :=
  paginate (nftsRequest address) (nftsCall api) isBasePaint 200 fuel [] None [].

(** [err?.message || fallback] *)
Definition errorMessage (err : Thrown) (fallback : string) : string :=
  match err with
  | ThrowNullish => fallback
  | ThrowObject _ message => messageOr message fallback
  end.

(** [fetchOwnedBasePaints]: the loop inside [try], with the state updates
    around it. A loop that does not finish leaves the promise pending, with
    [isLoadingNFTs] still set. *)
Definition fetchOwnedBasePaints (api : Api) (fuel : nat) (address : string)
    (st : HookState) : HookState * option (list CanvasItem) :=
  match snd (ownedPages api fuel address) with
  | Returned results =>
      ({| isLoadingNFTs := false; isLoadingOffers := isLoadingOffers st; error := None |},
       Some results)
  | Threw err =>
      ({| isLoadingNFTs := false; isLoadingOffers := isLoadingOffers st;
          error := Some (errorMessage err "Failed to fetch owned NFTs") |},
       Some [])
  | Unfinished =>
      ({| isLoadingNFTs := true; isLoadingOffers := isLoadingOffers st; error := None |},
       None)
  end.

(** [price?.decimals !== undefined && price?.value], then the conversion;
    an exception of the conversion is caught by the enclosing [try]. *)
Definition priceOf (p : option PriceJson) : option number :=
  match p with
  | Some pr =>
      match decimals pr with
      | Some d =>
          if truthy (value pr) then formatUnitsFloat (default "" (value pr)) d
          else None
      | None => None
      end
  | None => None
  end.

(** [fetchTokenMarketData], applied to the results of its two calls. *)
Definition fetchTokenMarketData (offerRes : Thrown + option OfferJson)
    (listingRes : Thrown + option ListingJson) : MarketData :=
  let (bestOffer, bestOfferOrderHash) :=
    match offerRes with
    | inr (Some offer) =>
        match priceOf (price offer) with
        | Some p => (p, order_hash offer)
        | None => (zero, None)
        end
    | _ => (zero, None)
    end in
  let (listPrice, isListed) :=
    match listingRes with
    | inr (Some listing) =>
        match priceOf (listing_price listing) with
        | Some p => (Some p, true)
        | None => (None, false)
        end
    | _ => (None, false)
    end in
  {| md_bestOffer := bestOffer;
     md_listPrice := listPrice;
     md_isListed := isListed;
     md_bestOfferOrderHash := bestOfferOrderHash |}.

(** The object literal written back by [enrichWithMarketData]: the spread
    keeps every property of the current element, the offer's protocol
    address included. *)
Definition withMarketData (current : CanvasItem) (data : MarketData) : CanvasItem :=
  {| id := id current;
     day := day current;
     imageUrl := imageUrl current;
     lastSale := lastSale current;
     bestOffer := md_bestOffer data;
     listPrice := md_listPrice data;
     isListed := Some (md_isListed data);
     bestOfferOrderHash := md_bestOfferOrderHash data;
     bestOfferProtocolAddress := bestOfferProtocolAddress current |}.

End Client.
End Sdk.

(** ** The enrichment pipeline: [enrichWithMarketData]

    The function copies its argument, replaces the copy's elements by new
    objects and hands further copies to the progress callback, so arrays
    and objects are heap cells addressed by references. *)

Definition loc := nat.

Inductive Cell :=
| Obj (o : CanvasItem)
| Arr (elements : list loc).

(** The memory, the calls of the progress callback (the array passed and
    the heap at the time of the call) and the hook's [isLoadingOffers]. *)
Record Mem := {
  heap : gmap loc Cell;
  calls : list (loc * gmap loc Cell);
  isLoadingOffers : bool;
}.

Definition Run (A : Type) : Type := Mem -> Outcome (A * Mem).

#[global] Instance Run_ret : MRet Run := fun A a m => Returned (a, m).

#[global] Instance Run_bind : MBind Run := fun A B k r m =>
  match r m with
  | Returned (a, m') => k a m'
  | Threw e => Threw e
  | Unfinished => Unfinished
  end.

Definition throwTypeError {A} (prop : string) : Run A := fun _ => Threw (TypeError prop).

Definition unfinished {A} : Run A := fun _ => Unfinished.

(** A new cell at an unused reference. *)
Definition alloc (c : Cell) : Run loc := fun m =>
  let l := fresh (dom (heap m)) in
  Returned (l, {| heap := <[l := c]> (heap m); calls := calls m;
                  isLoadingOffers := isLoadingOffers m |}).

Definition readArray (a : loc) : Run (list loc) := fun m =>
  match heap m !! a with
  | Some (Arr es) => Returned (es, m)
  | _ => Threw (TypeError "length")
  end.

(** [item.id] and the spread [{...item}] read an object; of [undefined]
    the property access throws. *)
Definition readObject (l : loc) : Run CanvasItem := fun m =>
  match heap m !! l with
  | Some (Obj o) => Returned (o, m)
  | _ => Threw (TypeError "id")
  end.

(** [a[j]] followed by a property access: out of range the element is
    [undefined] and the access throws. *)
Definition element (a : loc) (j : nat) : Run loc :=
  es ← readArray a;
  match es !! j with
  | Some l => mret l
  | None => throwTypeError "id"
  end.

(** Overwriting the cell at [a]. *)
Definition write (a : loc) (c : Cell) : Run unit := fun m =>
  Returned (tt, {| heap := <[a := c]> (heap m); calls := calls m;
                   isLoadingOffers := isLoadingOffers m |}).

(** [a[j] = l] for [j] inside the array. JavaScript would extend the array
    for [j] beyond its end; the pipeline never does that (the loop bounds
    [j] by the length), and the model stops there. *)
Definition store (a : loc) (j : nat) (l : loc) : Run unit :=
  es ← readArray a;
  if decide (j < length es)%nat then write a (Arr (<[j := l]> es))
  else unfinished.

(** [[...a]] *)
Definition copyArray (a : loc) : Run loc :=
  es ← readArray a;
  alloc (Arr es).

(** [a.slice(from, from + count)] *)
Definition slice (a : loc) (from count : nat) : Run loc :=
  es ← readArray a;
  alloc (Arr (take count (drop from es))).

(** [onProgress(a)]: the callback is an observer; the call is recorded. *)
Definition notify (a : loc) : Run unit := fun m =>
  Returned (tt, {| heap := heap m; calls := calls m ++ [(a, heap m)];
                   isLoadingOffers := isLoadingOffers m |}).

Definition setIsLoadingOffers (b : bool) : Run unit := fun m =>
  Returned (tt, {| heap := heap m; calls := calls m; isLoadingOffers := b |}).

Fixpoint forEach {A} (f : A -> Run unit) (l : list A) : Run unit :=
  match l with
  | [] => mret tt
  | x :: rest => f x;; forEach f rest
  end.

Fixpoint traverse {A B} (f : A -> Run B) (l : list A) : Run (list B) :=
  match l with
  | [] => mret []
  | x :: rest => y ← f x; ys ← traverse f rest; mret (y :: ys)
  end.

(** The order in which the callbacks of one batch resume after their
    [await]: for the batch that starts at [i] and has [n] callbacks, a list
    of callback indices. Every callback resumes exactly once. *)
Definition Schedule := nat -> nat -> list nat.

Definition fair (sched : Schedule) : Prop :=
  forall i n, Permutation (sched i n) (seq 0 n).

(** [Promise.all(tasks)] for the callbacks of a batch: they were started
    in index order (giving [pending]) and resume in the scheduled order. *)
Definition awaitAll {T} (resume : T -> Run unit) (order : list nat) (pending : list T)
    : Run unit :=
  forEach (fun idx => match pending !! idx with
                      | Some t => resume t
                      | None => mret tt
                      end) order.

(** The items reachable from array [a] in heap [h]. *)
Definition deref (h : gmap loc Cell) (l : loc) : option CanvasItem :=
  match h !! l with
  | Some (Obj o) => Some o
  | _ => None
  end.

Definition view (h : gmap loc Cell) (a : loc) : option (list CanvasItem) :=
  match h !! a with
  | Some (Arr es) => mapM (deref h) es
  | _ => None
  end.

(** The references [es] lead to the items [its], in this order. *)
Definition holds (h : gmap loc Cell) (es : list loc) (its : list CanvasItem) : Prop :=
  Forall2 (fun l it => deref h l = Some it) es its.

(** [its] with [f k] applied to the item at each position [k] of [ps]. *)
Definition enrich_at (f : nat -> CanvasItem -> CanvasItem) (ps : list nat)
    (its : list CanvasItem) : list CanvasItem :=
  foldl (fun cur k => alter (f k) k cur) its ps.

(** [⌈n / b⌉] *)
Definition ceil_div (n b : nat) : nat := (n + b - 1) / b.

(** The loop shared by both variants:
    [for (let i = 0; i < enriched.length; i += BATCH) { batch; progress }].
    [fuel] bounds the iterations of the model. *)
Section Pipeline.
Variable BATCH : nat.
Variable batch : loc -> nat -> Run unit.
Variable onProgress : bool.

Fixpoint batches (enriched : loc) (fuel : nat) (i : nat) : Run unit :=
  es ← readArray enriched;
  if decide (i < length es)%nat then
    match fuel with
    | O => unfinished
    | S fuel' =>
        batch enriched i;;
        (if onProgress then snapshot ← copyArray enriched; notify snapshot
         else mret tt);;
        batches enriched fuel' (i + BATCH)
    end
  else mret tt.

Definition pipeline (items : loc) : Run loc :=
  setIsLoadingOffers true;;
  enriched ← copyArray items;
  es ← readArray enriched;
  batches enriched (length es) 0;;
  setIsLoadingOffers false;;
  mret enriched.

End Pipeline.

(** The list in which the items at positions below [n] are enriched by
    [f] and the others are as given. *)
Definition enriched_below (f : nat -> CanvasItem -> CanvasItem) (n : nat)
    (its : list CanvasItem) : list CanvasItem :=
  imap (fun j it => if decide (j < n)%nat then f j it else it) its.

(** The memory after the callback [idx] of the batch at [i] has resumed:
    a new object holds the enriched item and [enriched[i + idx]] refers
    to it. *)
Definition resumed (f : nat -> CanvasItem -> CanvasItem) (e : loc) (i : nat)
    (m : Mem) (es : list loc) (idx : nat) (it : CanvasItem) : Mem :=
  {| heap := <[e := Arr (<[(i + idx)%nat := fresh (dom (heap m))]> es)]>
               (<[fresh (dom (heap m)) := Obj (f (i + idx)%nat it)]> (heap m));
     calls := calls m;
     isLoadingOffers := isLoadingOffers m |}.


(** The identifying properties of an item, which enrichment keeps. *)
Definition same_canvas (a b : CanvasItem) : Prop :=
  id a = id b /\ day a = day b /\ imageUrl a = imageUrl b /\ lastSale a = lastSale b.

(** What a batch has to do, seen from the loop: started with the items
    below [i] enriched, it leaves the items below [i + B] enriched, keeps
    the caller's heap [h0] and calls no callback. *)
Definition batch_ok (f : nat -> CanvasItem -> CanvasItem) (h0 : gmap loc Cell)
    (its : list CanvasItem) (B : nat) (batch : loc -> nat -> Run unit) : Prop :=
  forall e i m es,
    h0 !! e = None ->
    h0 ⊆ heap m ->
    heap m !! e = Some (Arr es) ->
    holds (heap m) es (enriched_below f i its) ->
    exists m' es',
      batch e i m = Returned (tt, m') /\
      heap m' !! e = Some (Arr es') /\
      h0 ⊆ heap m' /\
      dom (heap m) ⊆ dom (heap m') /\
      holds (heap m') es' (enriched_below f (i + B) its) /\
      calls m' = calls m /\
      isLoadingOffers m' = isLoadingOffers m.

(** The calls of the progress callback made from position [i] on: one per
    remaining batch; the [k]-th receives a new array in which the items of
    the batches done so far are enriched and the others are as given. *)
Definition progress_ok (f : nat -> CanvasItem -> CanvasItem) (B : nat)
    (h0 : gmap loc Cell) (its : list CanvasItem) (i : nat)
    (new : list (loc * gmap loc Cell)) : Prop :=
  length new = ceil_div (length its - i) B /\
  forall k s h, new !! k = Some (s, h) ->
    h0 !! s = None /\ h0 ⊆ h /\
    view h s = Some (enriched_below f (i + (k + 1) * B) its).

Module RestPipeline.
Import Rest.

Definition BATCH : nat := 4.

(** A callback of [map] that has run up to its [await]. *)
Record Pending := {
  p_idx : nat;
  p_item : loc;
  p_listingData : ListingData;
  p_offerData : OfferData;
}.

Section Enrich.
Context `{JsRuntime}.
Variable api : Api.
Variable sched : Schedule.

(** [const item = enriched[i + idx]] and the two fetches for [item.id]. *)
Definition start (enriched : loc) (i idx : nat) : Run Pending :=
  item ← element enriched (i + idx);
  o ← readObject item;
  mret {| p_idx := idx;
          p_item := item;
          p_listingData := fetchBestListing (best_listing_endpoint api (i + idx) (id o));
          p_offerData := fetchBestOffer (best_offer_endpoint api (i + idx) (id o)) |}.

(** [enriched[i + idx] = { ...item, listPrice: ..., ... }] *)
Definition resume (enriched : loc) (i : nat) (t : Pending) : Run unit :=
  o ← readObject (p_item t);
  new ← alloc (Obj (withMarketData o (p_listingData t) (p_offerData t)));
  store enriched (i + p_idx t) new.

Definition batch (enriched : loc) (i : nat) : Run unit :=
  part ← slice enriched i BATCH;
  es ← readArray part;
  pending ← traverse (start enriched i) (seq 0 (length es));
  awaitAll (resume enriched i) (sched i (length es)) pending.

Definition enrichWithMarketData (onProgress : bool) (items : loc) : Run loc :=
  pipeline BATCH batch onProgress items.

(** What enrichment makes of the item at position [j]. *)
Definition enrichedItem (j : nat) (it : CanvasItem) : CanvasItem :=
  withMarketData it
    (fetchBestListing (best_listing_endpoint api j (id it)))
    (fetchBestOffer (best_offer_endpoint api j (id it))).

End Enrich.
End RestPipeline.

Module SdkPipeline.
Import Sdk.

Definition BATCH : nat := 5.

Record Pending := {
  p_idx : nat;
  p_data : MarketData;
}.

Section Enrich.
Context `{JsRuntime}.
Variable api : Api.
Variable sched : Schedule.

(** The callback receives [item] from the slice and calls
    [fetchTokenMarketData(item.id)]. *)
Definition start (part : loc) (i idx : nat) : Run Pending :=
  item ← element part idx;
  o ← readObject item;
  mret {| p_idx := idx;
          p_data := fetchTokenMarketData (getBestOffer api (i + idx) (id o))
                      (getBestListing api (i + idx) (id o)) |}.

(** [enriched[i + idx] = { ...enriched[i + idx], bestOffer: ..., ... }] *)
Definition resume (enriched : loc) (i : nat) (t : Pending) : Run unit :=
  current ← element enriched (i + p_idx t);
  o ← readObject current;
  new ← alloc (Obj (withMarketData o (p_data t)));
  store enriched (i + p_idx t) new.

Definition batch (enriched : loc) (i : nat) : Run unit :=
  part ← slice enriched i BATCH;
  es ← readArray part;
  pending ← traverse (start part i) (seq 0 (length es));
  awaitAll (resume enriched i) (sched i (length es)) pending.

Definition enrichWithMarketData (onProgress : bool) (items : loc) : Run loc :=
  pipeline BATCH batch onProgress items.

Definition enrichedItem (j : nat) (it : CanvasItem) : CanvasItem :=
  withMarketData it
    (fetchTokenMarketData (getBestOffer api j (id it)) (getBestListing api j (id it))).

End Enrich.
End SdkPipeline.

(** ** A concrete runtime and the scenarios of the specification *)

Module Scenario.

(** A string of decimal digits as an integer. *)
Definition digits (s : string) : option Z :=
  match s with
  | EmptyString => None
  | _ => Z.of_uint <$> NilEmpty.uint_of_string s
  end.

(** A runtime for strings of decimal digits: [parseInt] and [Number] read
    them, [toString] prints integers (other numbers as a fraction), and
    [formatUnitsFloat raw d] is [raw / 10^d]. *)
#[local] Instance runtime : JsRuntime := {|
  parseInt s := match digits s with Some z => Num (inject_Z z) | None => NaN end;
  Number s := match digits s with Some z => Num (inject_Z z) | None => NaN end;
  toString n :=
    match n with
    | NaN => "NaN"
    | Num q =>
        NilZero.string_of_int (Z.to_int (Qnum q))
        +:+ (if decide (Qden q = 1%positive) then ""
             else "/" +:+ NilZero.string_of_int (Z.to_int (Zpos (Qden q))))
    end;
  formatUnitsFloat raw d :=
    match digits raw with
    | Some z => Some (Num (Qred (z # Z.to_pos (10 ^ d))))
    | None => None
    end;
|}.

(** The wallet of the specification's example holds tokens 701 and 703. *)
Definition token701 : CanvasItem := ownedItem "701".
Definition token703 : CanvasItem := ownedItem "703".

(** 0.025 as a number. *)
Definition price_0_025 : number := Num (1 # 40).

Definition listing_0_025 : Rest.ListingJson :=
  {| Rest.price_current := Some {| value := Some "25000000000000000"; decimals := Some 18%Z |} |}.

(** What the wallet of the example owns: the two canvases and an NFT of
    another collection. *)
Definition wallet_nfts : list NftJson :=
  [ {| identifier := "701"; contract := Some BASEPAINT_NFT_CONTRACT;
       collection := "basepaint" |};
    {| identifier := "703"; contract := Some BASEPAINT_NFT_CONTRACT;
       collection := "basepaint" |};
    {| identifier := "9"; contract := Some "0x0000000000000000000000000000000000000001";
       collection := "other" |} ].

(** The marketplace of the example: the owned-token endpoint selects by
    collection; there is a 0.025 ETH listing for 701, none for 703, and
    there are no offers. *)
Definition market : Rest.Api := {|
  Rest.nfts_endpoint _ req :=
    Ok (inr {| Rest.nfts :=
                 Some (List.filter
                         (fun nft => bool_decide (collection nft = Rest.collection_param req))
                         wallet_nfts);
               Rest.next := None |});
  Rest.best_listing_endpoint _ tokenId :=
    if decide (tokenId = "701") then Ok (inr [listing_0_025]) else Ok (inr []);
  Rest.best_offer_endpoint _ _ := Ok (inr []);
|}.

(** The caller's memory: the two items and the array [owned] holding them. *)
Definition owned : loc := 2.

Definition memory : Mem := {|
  heap := {[ 0 := Obj token701; 1 := Obj token703; 2 := Arr [0; 1] ]};
  calls := [];
  isLoadingOffers := false;
|}.

(** Callbacks resume in index order, or in the opposite order. *)
Definition in_order : Schedule := fun _ n => seq 0 n.
Definition reversed : Schedule := fun _ n => reverse (seq 0 n).

(** An SDK marketplace with one offer on every token and no listings. *)
Definition offer_1_eth : Sdk.OfferJson :=
  {| Sdk.price := Some {| value := Some "1000000000000000000"; decimals := Some 18%Z |};
     Sdk.order_hash := Some "0x9a11" |}.

Definition sdk_market : Sdk.Api := {|
  Sdk.getNFTsByAccount _ _ := inr {| Sdk.nfts := wallet_nfts; Sdk.next := None |};
  Sdk.getBestOffer _ _ := inr (Some offer_1_eth);
  Sdk.getBestListing _ _ := inr None;
|}.

(** A modal opened on the item of token 703, which has no offer. *)
Definition accept_703 : CanvasList.State := {|
  CanvasList.items := [token701; token703];
  CanvasList.activeModal :=
    Some {| CanvasList.type := CanvasList.accept_modal; CanvasList.item := token703 |};
  CanvasList.listingPrice := "";
  CanvasList.listingDuration := {| CanvasList.label := "1 month"; CanvasList.days := 30 |};
  CanvasList.isProcessing := false;
  CanvasList.processingStep := "";
|}.

Definition connected : CanvasList.Context := {|
  CanvasList.address := Some "0x52908400098527886E0F7030069857D2E4169EE7";
  CanvasList.provider_found := true;
  CanvasList.createListing_result := inr tt;
  CanvasList.fulfillOffer_result := inr "0x7c5e";
  CanvasList.openUrl_resolves := true;
|}.

End Scenario.

(** ** The application shell: wallet auto-sync

    [App] calls [useWallet] and, in an effect that runs after every render,
    tries once to connect. *)

Module App.
Import Wallet.

(** The state of [App]: the toast, [isSyncingWallet], and the ref
    [didAutoConnect]. *)
Record AppState := {
  toastMessage : option (string * CanvasList.ToastKind);
  isSyncingWallet : bool;
  didAutoConnect : bool;
}.

(** [syncWallet]: guarded by the ref and by the address; [connect] runs
    inside [try { } catch { } finally { setIsSyncingWallet(false) }], so
    nothing it throws leaves the effect. *)
Definition syncWallet (env : Env) (app : AppState) (w : World) : AppState * World :=
  if negb (didAutoConnect app) && negb (truthy (address (hook w))) then
    ({| toastMessage := toastMessage app;
        isSyncingWallet := false;
        didAutoConnect := true |},
     snd (connect env w))
  else (app, w).

(** A wallet that is already on Base. *)
Definition base_wallet : Provider := fun r =>
  match r with
  | eth_chainId => Resolve (VString BASE_CHAIN_ID)
  | _ => mainnet_wallet r
  end.

(** A wallet whose user refuses the account request. *)
Definition locked_wallet : Provider := fun r =>
  match r with
  | eth_requestAccounts =>
      Reject (ThrowObject (Some 4001%Z) (Some "User rejected the request."))
  | _ => mainnet_wallet r
  end.

Definition fresh_app : AppState :=
  {| toastMessage := None; isSyncingWallet := false; didAutoConnect := false |}.

End App.

(** ** The REST hook around the owned-token fetch *)

Module RestHook.

(** The hook's React state. *)
Record HookState := {
  isLoadingNFTs : bool;
  isLoadingOffers : bool;
  error : option string;
}.

Section Hook.
Context `{JsRuntime}.

(** [fetchOwnedBasePaints]: [fetchNFTsByOwner] inside
    [try { } catch { setError(...); return [] } finally { ... }]. A fetch
    that does not finish leaves the promise pending, with [isLoadingNFTs]
    still set. *)
Definition fetchOwnedBasePaints (api : Rest.Api) (fuel : nat) (address : string)
    (st : HookState) : HookState * option (list CanvasItem) :=
  match snd (Rest.fetchNFTsByOwner api fuel address) with
  | Returned results =>
      ({| isLoadingNFTs := false; isLoadingOffers := isLoadingOffers st; error := None |},
       Some results)
  | Threw err =>
      ({| isLoadingNFTs := false; isLoadingOffers := isLoadingOffers st;
          error := Some (Sdk.errorMessage err "Failed to fetch NFTs") |},
       Some [])
  | Unfinished =>
      ({| isLoadingNFTs := true; isLoadingOffers := isLoadingOffers st; error := None |},
       None)
  end.

End Hook.

(** A marketplace whose second page fails: the first page holds token 701
    and a cursor, the second request is answered with status 500. *)
Definition flaky_market : Rest.Api := {|
  Rest.nfts_endpoint k _ :=
    match k with
    | O => Ok (inr {| Rest.nfts := Some [ {| identifier := "701";
                                             contract := Some BASEPAINT_NFT_CONTRACT;
                                             collection := "basepaint" |} ];
                      Rest.next := Some "page-2" |})
    | _ => NotOk "500"
    end;
  Rest.best_listing_endpoint _ _ := Ok (inr []);
  Rest.best_offer_endpoint _ _ := Ok (inr []);
|}.

Definition idle : HookState :=
  {| isLoadingNFTs := false; isLoadingOffers := false; error := None |}.

End RestHook.


(** ** Floor listings and the "Keep exploring" section *)

(** JavaScript truthiness of a number: [0] and [NaN] are falsy. *)
Definition truthy_number (n : number) : bool :=
  match n with
  | NaN => false
  | Num q => negb (Qeq_bool q 0)
  end.

Module Floor.

(** [FloorListing], with the types of its interface. *)
Record FloorListing := {
  orderHash : string;
  protocolAddress : string;
  tokenId : string;
  priceEth : number;
  imageUrl : string;
}.

Definition floorListing (orderHash protocolAddress tokenId : string) (priceEth : number)
    : FloorListing :=
  {| orderHash := orderHash;
     protocolAddress := protocolAddress;
     tokenId := tokenId;
     priceEth := priceEth;
     imageUrl := "https://basepaint.xyz/api/art/image?day=" +:+ tokenId |}.

(** [list.sort(() => Math.random() - 0.5)]: some rearrangement of the
    list, chosen by the runtime. *)
Definition Shuffle := list FloorListing -> list FloorListing.

Definition rearranges (shuffle : Shuffle) : Prop :=
  forall l, Permutation (shuffle l) l.

End Floor.

(** The REST variant: [fetchCollectionListings] and [fetchFloorListings]. *)
Module RestFloor.
Import Floor.

(** An element of [data.listings]:
    [protocol_data?.parameters?.offer?.[0]?.identifierOrCriteria],
    [price?.current], [order_hash] and [protocol_address]. *)
Record ListingJson := {
  identifierOrCriteria : option string;
  price_current : option PriceJson;
  order_hash : string;
  protocol_address : string;
}.

(** The body of the response: [data.listings] may be missing. *)
Record ListingsPage := {
  listings : option (list ListingJson);
}.

Section Client.
Context `{JsRuntime}.
Variable shuffle : Shuffle.

(** [raw ? parseFloat(ethers.formatUnits(raw, decimals)) : 0]; [None]
    when [formatUnits] throws. *)
Definition priceOf (listing : ListingJson) : option number :=
  let raw := price_current listing ≫= value in
  let decimals := default 18%Z (price_current listing ≫= decimals) in
  if truthy raw then formatUnitsFloat (default "" raw) decimals else Some zero.

(** One pass through the body of the [for] loop: [None] when it throws,
    [Some None] when it ends in [continue], [Some (Some l)] when it
    pushes [l]. *)
Definition visit (listing : ListingJson) : option (option FloorListing) :=
  let tokenId := default "0" (identifierOrCriteria listing) in
  priceEth ← priceOf listing;
  Some (if negb (truthy_number priceEth) || bool_decide (tokenId = "0")
        then None
        else Some (floorListing (order_hash listing) (protocol_address listing)
                     tokenId priceEth)).

(** The [for] loop over [data.listings ?? []], pushing to [listings];
    [None] when an iteration throws. *)
Fixpoint collect (data : list ListingJson) (listings : list FloorListing)
    : option (list FloorListing) :=
  match data with
  | [] => Some listings
  | listing :: rest =>
      match visit listing with
      | None => None
      | Some None => collect rest listings
      | Some (Some l) => collect rest (listings ++ [l])
      end
  end.

(** [fetchCollectionListings], applied to the response of its request;
    [None] when it throws. Its only caller discards the exception. *)
Definition fetchCollectionListings (res : HttpResponse ListingsPage)
    : option (list FloorListing) :=
  match res with
  | Ok (inr data) => shuffle <$> collect (default [] (listings data)) []
  | _ => None
  end.

(** [fetchFloorListings]: the [catch] turns every exception into an empty
    list. *)
Definition fetchFloorListings (res : HttpResponse ListingsPage) : list FloorListing :=
  default [] (fetchCollectionListings res).

End Client.
End RestFloor.

(** The SDK variant of [fetchFloorListings]. *)
Module SdkFloor.
Import Floor.

(** An order of [sdk.api.getListings]:
    [taker_asset_bundle?.assets?.[0]?.token_id],
    [protocol_data?.parameters?.offer?.[0]?.identifierOrCriteria],
    [current_price], [order_hash] and [protocol_address]. *)
Record OrderJson := {
  taker_token_id : option string;
  identifierOrCriteria : option string;
  current_price : option string;
  order_hash : string;
  protocol_address : string;
}.

Section Client.
Context `{JsRuntime}.
Variable shuffle : Shuffle.

(** The callback of [orders.map]; [None] when [formatEther] throws. *)
Definition toListing (order : OrderJson) : option FloorListing :=
  let tokenId :=
    default "0" (match taker_token_id order with
                 | Some t => Some t
                 | None => identifierOrCriteria order
                 end) in
  priceEth ← (if truthy (current_price order)
              then formatUnitsFloat (default "" (current_price order)) 18
              else Some zero);
  Some (floorListing (order_hash order) (protocol_address order) tokenId priceEth).

(** [fetchFloorListings], applied to what [getListings] gives: a
    rejection, or a page whose [orders] may be missing. *)
Definition fetchFloorListings (res : Thrown + option (list OrderJson)) : list FloorListing :=
  match res with
  | inr (Some orders) =>
      match mapM toListing orders with
      | Some mapped => shuffle (List.filter (fun l => gt_zero (priceEth l)) mapped)
      | None => []
      end
  | _ => []
  end.

End Client.
End SdkFloor.

(** The component [FeaturedCanvases] that shows the floor listings. *)
Module FeaturedCanvases.
Import Floor.

Record State := {
  items : list FloorListing;
  isLoading : bool;
  buyingId : option string;
}.

Inductive Effect :=
| ShowToast (msg : string) (kind : CanvasList.ToastKind)
| Connect
| FulfillListing (account orderHash protocolAddress : string).

(** What surrounds one run of [handleBuy]. *)
Record Context := {
  address : option string;
  provider_found : bool;
  fulfillListing_result : Thrown + string;
}.

Definition setItems (f : list FloorListing -> list FloorListing) (st : State) : State :=
  {| items := f (items st); isLoading := isLoading st; buyingId := buyingId st |}.

Definition setBuyingId (b : option string) (st : State) : State :=
  {| items := items st; isLoading := isLoading st; buyingId := b |}.

Section Handlers.
Context `{JsRuntime}.

Definition handleBuy (ctx : Context) (item : FloorListing) (st : State)
    : State * list Effect :=
  if negb (truthy (address ctx)) then (st, [Connect])
  else
    let account := default "" (address ctx) in
    let st1 := setBuyingId (Some (orderHash item)) st in
    if negb (provider_found ctx) then
      (setBuyingId None st1,
       [ShowToast (CanvasList.failure_message (Error "No wallet provider found")
                     "Purchase cancelled" "Failed to complete purchase")
          CanvasList.error])
    else
      let call := FulfillListing account (orderHash item) (protocolAddress item) in
      match fulfillListing_result ctx with
      | inl err =>
          (setBuyingId None st1,
           [call;
            ShowToast (CanvasList.failure_message err "Purchase cancelled"
                         "Failed to complete purchase") CanvasList.error])
      | inr _ =>
          let st2 :=
            setItems (List.filter
                        (fun i => negb (bool_decide (orderHash i = orderHash item)))) st1 in
          (setBuyingId None st2,
           [call;
            ShowToast ("Bought BasePaint #" +:+ tokenId item +:+ " for "
                       +:+ toString (priceEth item) +:+ " ETH ✓") CanvasList.success])
      end.

End Handlers.
End FeaturedCanvases.

(** ** The mint panel: [MintSection] *)

(** Whole numbers of the mint panel (a quantity, a day, seconds and
    milliseconds since the epoch) are integers far below 2^53, where
    JavaScript arithmetic on them is exact; [Math.floor(a / b)] for a
    positive [b] is [a / b] and [a % b] is [Z.rem a b]. *)
Module MintSection.
#[local] Open Scope Z_scope.


Inductive Mode := current | in_progress.

Record State := {
  mode : Mode;
  quantity : Z;
  showModal : bool;
  isMinting : bool;
}.

(** [useState] initial values. *)
Definition initial : State :=
  {| mode := current; quantity := 1; showModal := false; isMinting := false |}.

Definition setQuantity (f : Z -> Z) (st : State) : State :=
  {| mode := mode st; quantity := f (quantity st);
     showModal := showModal st; isMinting := isMinting st |}.

Definition setShowModal (b : bool) (st : State) : State :=
  {| mode := mode st; quantity := quantity st;
     showModal := b; isMinting := isMinting st |}.

Definition setMode (m : Mode) (st : State) : State :=
  {| mode := m; quantity := quantity st;
     showModal := showModal st; isMinting := isMinting st |}.

Definition handleIncrement : State -> State := setQuantity (fun q => q + 1).

Definition handleDecrement : State -> State := setQuantity (fun q => Z.max 1 (q - 1)).

Definition closeModal (st : State) : State :=
  setQuantity (fun _ => 1) (setShowModal false st).

Definition openSuccess : State -> State := setShowModal true.

(** What the user and the parent component can do to the panel. *)
Inductive Action :=
| Increment
| Decrement
| CloseModal
| OpenSuccess
| SetMode (m : Mode).

Definition step (st : State) (a : Action) : State :=
  match a with
  | Increment => handleIncrement st
  | Decrement => handleDecrement st
  | CloseModal => closeModal st
  | OpenSuccess => openSuccess st
  | SetMode m => setMode m st
  end.



(** [targetDate.setUTCHours(16, 40, 0, 0)] keeps the UTC day of [nowMs]
    and sets the time of day; [setUTCDate(getUTCDate() + 1)] adds a day. *)
Definition mintingEndsAt (nowMs : Z) : Z :=
  let targetDate := nowMs / 86400000 * 86400000 + (16 * 3600 + 40 * 60) * 1000 in
  let targetDate := if targetDate <=? nowMs then targetDate + 86400000 else targetDate in
  targetDate / 1000.


(** [n.toString()] for a whole number. *)
Definition decimal (n : Z) : string := NilZero.string_of_int (Z.to_int n).

Fixpoint repeat_string (n : nat) (s : string) : string :=
  match n with
  | O => ""
  | S n => s +:+ repeat_string n s
  end.

(** [s.padStart(width, c)] for a one-character [c]. *)
Definition padStart (width : nat) (c s : string) : string :=
  repeat_string (width - String.length s)%nat c +:+ s.

Definition fmt (n : Z) : string := padStart 2 "0" (decimal n).

(** The hours, minutes and seconds that [tick] prints for a positive
    [diff]. *)
Definition clock (diff : Z) : Z * Z * Z :=
  let h := diff / 3600 in
  let m := Z.rem diff 3600 / 60 in
  let s := Z.rem diff 60 in
  (h, m, s).

(** [tick], given [dailyData.mintingEndsAt] and [Date.now()]: the new
    [timeLeft], and whether [fetchDailyData] is called. The effect does
    not run while [mintingEndsAt] is missing or zero. *)
Definition tick (mintingEndsAt : option Z) (nowMs : Z) : option (string * bool) :=
  match mintingEndsAt with
  | None => None
  | Some ends =>
      if ends =? 0 then None
      else
        let now := nowMs / 1000 in
        let diff := ends - now in
        if diff <=? 0 then Some ("00:00:00", true)
        else
          let '(h, m, s) := clock diff in
          Some (fmt h +:+ ":" +:+ fmt m +:+ ":" +:+ fmt s, false)
  end.

End MintSection.

(** ** Further examples *)

Module MoreScenario.

(** A marketplace with no listings and no offers at all. *)
Definition quiet_market : Rest.Api := {|
  Rest.nfts_endpoint := Rest.nfts_endpoint Scenario.market;
  Rest.best_listing_endpoint _ _ := Ok (inr []);
  Rest.best_offer_endpoint _ _ := Ok (inr []);
|}.

(** A caller's memory that holds an empty array. *)
Definition nothing : loc := 0.

Definition empty_memory : Mem := {|
  heap := {[ 0 := Arr [] ]};
  calls := [];
  isLoadingOffers := false;
|}.

(** Token 701 with an offer of 1 ETH on it. *)
Definition offered_701 : CanvasItem :=
  {| id := "701"; day := day Scenario.token701; imageUrl := imageUrl Scenario.token701;
     lastSale := zero; listPrice := None; bestOffer := Num 1; isListed := Some false;
     bestOfferOrderHash := Some "0x9a11";
     bestOfferProtocolAddress := Some "0x0000000000000068F116a894984e2DB1123eB395" |}.

(** The listing modal of token 701 with the price 2 entered, and with the
    price 0 entered. *)
Definition list_701 : CanvasList.State := {|
  CanvasList.items := [Scenario.token701; Scenario.token703];
  CanvasList.activeModal :=
    Some {| CanvasList.type := CanvasList.list_modal;
            CanvasList.item := Scenario.token701 |};
  CanvasList.listingPrice := "2";
  CanvasList.listingDuration := {| CanvasList.label := "1 month"; CanvasList.days := 30 |};
  CanvasList.isProcessing := false;
  CanvasList.processingStep := "";
|}.

Definition list_701_free : CanvasList.State :=
  CanvasList.setListingPrice "0" list_701.

(** The accept modal of token 701, which has an offer. *)
Definition accept_701 : CanvasList.State := {|
  CanvasList.items := [offered_701; Scenario.token703];
  CanvasList.activeModal :=
    Some {| CanvasList.type := CanvasList.accept_modal; CanvasList.item := offered_701 |};
  CanvasList.listingPrice := "";
  CanvasList.listingDuration := {| CanvasList.label := "1 month"; CanvasList.days := 30 |};
  CanvasList.isProcessing := false;
  CanvasList.processingStep := "";
|}.

(** A user who declines every signature request. *)
Definition declined : CanvasList.Context := {|
  CanvasList.address := Some "0x52908400098527886E0F7030069857D2E4169EE7";
  CanvasList.provider_found := true;
  CanvasList.createListing_result := inl (Error "user rejected action");
  CanvasList.fulfillOffer_result := inl (Error "user rejected action");
  CanvasList.openUrl_resolves := true;
|}.

(** A render without a connected wallet. *)
Definition no_account : CanvasList.Context := {|
  CanvasList.address := None;
  CanvasList.provider_found := true;
  CanvasList.createListing_result := inr tt;
  CanvasList.fulfillOffer_result := inr "0x7c5e";
  CanvasList.openUrl_resolves := true;
|}.

(** A page of collection listings: one for token 542 at 0.012 ETH, one
    without a token id, one without a price. *)
Definition listing_542 : RestFloor.ListingJson := {|
  RestFloor.identifierOrCriteria := Some "542";
  RestFloor.price_current :=
    Some {| value := Some "12000000000000000"; decimals := Some 18%Z |};
  RestFloor.order_hash := "0x5a42";
  RestFloor.protocol_address := "0x0000000000000068F116a894984e2DB1123eB395";
|}.

Definition floor_page : HttpResponse RestFloor.ListingsPage :=
  Ok (inr {| RestFloor.listings :=
               Some [ listing_542;
                      {| RestFloor.identifierOrCriteria := None;
                         RestFloor.price_current := RestFloor.price_current listing_542;
                         RestFloor.order_hash := "0x5a43";
                         RestFloor.protocol_address := "0x01" |};
                      {| RestFloor.identifierOrCriteria := Some "420";
                         RestFloor.price_current := None;
                         RestFloor.order_hash := "0x5a44";
                         RestFloor.protocol_address := "0x01" |} ] |}).

(** The same page followed by a listing whose price is not a number. *)
Definition unreadable_listing : RestFloor.ListingJson := {|
  RestFloor.identifierOrCriteria := Some "312";
  RestFloor.price_current := Some {| value := Some "1e16"; decimals := Some 18%Z |};
  RestFloor.order_hash := "0x5a45";
  RestFloor.protocol_address := "0x01";
|}.

Definition unreadable_page : HttpResponse RestFloor.ListingsPage :=
  Ok (inr {| RestFloor.listings := Some [listing_542; unreadable_listing] |}).

(** Two orders of the SDK: token 420 at 0.069 ETH and an order without a
    price. *)
Definition order_420 : SdkFloor.OrderJson := {|
  SdkFloor.taker_token_id := None;
  SdkFloor.identifierOrCriteria := Some "420";
  SdkFloor.current_price := Some "69000000000000000";
  SdkFloor.order_hash := "0x4a20";
  SdkFloor.protocol_address := "0x0000000000000068F116a894984e2DB1123eB395";
|}.

Definition floor_orders : Thrown + option (list SdkFloor.OrderJson) :=
  inr (Some [ order_420;
              {| SdkFloor.taker_token_id := Some "101";
                 SdkFloor.identifierOrCriteria := None;
                 SdkFloor.current_price := None;
                 SdkFloor.order_hash := "0x4a21";
                 SdkFloor.protocol_address := "0x01" |} ]).

(** The runtime's choice of order: here, the list reversed. *)
Definition backwards : Floor.Shuffle := reverse.

(** The section with two listings shown, one of them being bought
    elsewhere. *)
Definition bought : Floor.FloorListing :=
  Floor.floorListing "0x5a42" "0x0000000000000068F116a894984e2DB1123eB395" "542"
    (Num (3 # 250)).

Definition other : Floor.FloorListing :=
  Floor.floorListing "0x4a20" "0x0000000000000068F116a894984e2DB1123eB395" "420"
    (Num (69 # 1000)).

Definition exploring : FeaturedCanvases.State := {|
  FeaturedCanvases.items := [bought; other];
  FeaturedCanvases.isLoading := false;
  FeaturedCanvases.buyingId := Some "0x4a20";
|}.

Definition buyer : FeaturedCanvases.Context := {|
  FeaturedCanvases.address := Some "0x52908400098527886E0F7030069857D2E4169EE7";
  FeaturedCanvases.provider_found := true;
  FeaturedCanvases.fulfillListing_result := inr "0x7c5e";
|}.

End MoreScenario.

(** * Properties *)

Module WalletFacts.
Import Wallet.

Lemma connect_log_shape env p w accounts c :
  getProvider env = Some p ->
  p eth_requestAccounts = Resolve accounts ->
  p eth_chainId = Resolve c ->
  c <> VString BASE_CHAIN_ID ->
  issued (connect env) w =
    [eth_requestAccounts; eth_chainId; wallet_switchEthereumChain BASE_CHAIN_ID]
    ++ (if unknown_chain (p (wallet_switchEthereumChain BASE_CHAIN_ID))
        then [wallet_addEthereumChain BASE_CHAIN_CONFIG] else []).
Proof.
  intros Hp Ha Hc Hne. run_connect. rewrite Hp. simpl. rewrite Ha.
  destruct (firstAccount accounts); simpl; rewrite Hc; simpl;
    (destruct (decide (c = VString BASE_CHAIN_ID)) as [|_]; [contradiction|]);
    destruct (p (wallet_switchEthereumChain BASE_CHAIN_ID)) as [v|[|code msg]]; simpl.
  all: try (destruct (decide (code = Some 4902%Z)) as [->|Hcode]; simpl).
  all: try destruct (p (wallet_addEthereumChain BASE_CHAIN_CONFIG)) as [v'|[|code' msg']]; simpl.
  all: rewrite <- ?app_assoc; simpl; rewrite ?drop_app_length; try reflexivity.
  all: rewrite bool_decide_eq_false_2 by assumption; reflexivity.
Qed.

(** C2. When the account request succeeds and the provider reports a chain
    other than 0x2105, [connect] sends exactly one
    [wallet_switchEthereumChain] request, and sends a
    [wallet_addEthereumChain] request if and only if the switch was rejected
    with error code 4902. *)
Theorem connect_switches_chain_once env p w accounts c :
  getProvider env = Some p ->
  p eth_requestAccounts = Resolve accounts ->
  p eth_chainId = Resolve c ->
  c <> VString BASE_CHAIN_ID ->
  length (List.filter is_switch (issued (connect env) w)) = 1 /\
  ((exists cfg, wallet_addEthereumChain cfg ∈ issued (connect env) w) <->
   (exists msg, p (wallet_switchEthereumChain BASE_CHAIN_ID)
                = Reject (ThrowObject (Some 4902%Z) msg))).
Proof.
  intros Hp Ha Hc Hne.
  rewrite (connect_log_shape env p w accounts c Hp Ha Hc Hne).
  destruct (p (wallet_switchEthereumChain BASE_CHAIN_ID)) as [v|[|code msg]] eqn:Hs; simpl.
  1,2: split; [reflexivity|]; split; [intros [cfg Hin]|intros [m Hm]; discriminate];
       repeat (apply elem_of_cons in Hin as [Hin|Hin]; [discriminate|]);
       by apply elem_of_nil in Hin.
  case_bool_decide as Hcode; simpl; (split; [reflexivity|]).
  - subst code. split; [eauto|]. intros _. exists BASE_CHAIN_CONFIG.
    rewrite !elem_of_cons. tauto.
  - split; [intros [cfg Hin]|intros [m Hm]; congruence].
    repeat (apply elem_of_cons in Hin as [Hin|Hin]; [discriminate|]).
    by apply elem_of_nil in Hin.
Qed.

Lemma connect_switches_chain_once_witness :
  length (List.filter is_switch (issued (connect (injected mainnet_wallet)) fresh_hook)) = 1 /\
  ((exists cfg, wallet_addEthereumChain cfg
                ∈ issued (connect (injected mainnet_wallet)) fresh_hook) <->
   (exists msg, mainnet_wallet (wallet_switchEthereumChain BASE_CHAIN_ID)
                = Reject (ThrowObject (Some 4902%Z) msg))).
Proof.
  apply (connect_switches_chain_once (injected mainnet_wallet) mainnet_wallet fresh_hook
           (VStrings ["0x52908400098527886E0F7030069857D2E4169EE7"]) (VString "0x1")).
  - reflexivity.
  - reflexivity.
  - reflexivity.
  - discriminate.
Defined.

(** Whatever the provider does, [connect] ends with [isConnecting] false. *)
Lemma connect_clears_isConnecting env w :
  isConnecting (hook (snd (connect env w))) = false.
Proof.
  run_connect. destruct (getProvider env) as [p|]; simpl; [|reflexivity].
  destruct (p eth_requestAccounts) as [a|[|c0 m0]]; simpl; try reflexivity.
  destruct (firstAccount a); simpl;
    destruct (p eth_chainId) as [c|[|c1 m1]]; simpl; try reflexivity;
    destruct (decide (c = VString BASE_CHAIN_ID)); simpl; try reflexivity;
    destruct (p (wallet_switchEthereumChain BASE_CHAIN_ID)) as [v|[|code msg]];
    simpl; try reflexivity;
    destruct (decide (code = Some 4902%Z)); simpl; try reflexivity;
    destruct (p (wallet_addEthereumChain BASE_CHAIN_CONFIG)) as [v'|[|c2 m2]];
    reflexivity.
Qed.

Lemma readable_messageOr message fallback :
  fallback <> "" -> readable (Some (messageOr message fallback)).
Proof.
  intros Hf. destruct message as [[|c s]|]; simpl;
    solve [ by eexists _, _
          | destruct fallback as [|c s]; [done | by exists c, s] ].
Qed.

(** A rejection with [undefined] escapes [connect]: the handler's own
    [err.message] throws, and the promise returned by [connect] rejects. *)
Lemma connect_rejects_on_nullish_rejection :
  fst (connect (injected (fun _ => Reject ThrowNullish)) fresh_hook)
  = inl (TypeError "message").
Proof. reflexivity. Qed.

(** C7, as stated, fails: a switch request that is rejected with a code
    other than 4902 is a failure during [connect] that leaves [error] null. *)
Lemma connect_swallows_declined_switch :
  ~ (forall env w,
       fst (connect env w) = inr tt /\
       (failure_during_connect env w -> readable (error (hook (snd (connect env w)))))).
Proof.
  intros H. destruct (H (injected declining_wallet) fresh_hook) as [_ Hrep].
  assert (Hfail : failure_during_connect (injected declining_wallet) fresh_hook).
  { right. exists declining_wallet, (wallet_switchEthereumChain BASE_CHAIN_ID).
    eexists. split; [reflexivity|]. split; [|reflexivity].
    replace (issued (connect (injected declining_wallet)) fresh_hook)
      with [eth_requestAccounts; eth_chainId; wallet_switchEthereumChain BASE_CHAIN_ID]
      by reflexivity.
    rewrite !elem_of_cons. tauto. }
  destruct (Hrep Hfail) as (c & s & Heq). vm_compute in Heq. discriminate.
Qed.

Lemma connect_with_provider env p w :
  getProvider env = Some p ->
  rejects_with_objects p ->
  fst (connect env w) = inr tt /\
  (forall e, p eth_requestAccounts = Reject e ->
     readable (error (hook (snd (connect env w))))) /\
  (forall a e, p eth_requestAccounts = Resolve a -> p eth_chainId = Reject e ->
     readable (error (hook (snd (connect env w))))) /\
  (forall a c e, p eth_requestAccounts = Resolve a -> p eth_chainId = Resolve c ->
     c <> VString BASE_CHAIN_ID ->
     unknown_chain (p (wallet_switchEthereumChain BASE_CHAIN_ID)) = true ->
     p (wallet_addEthereumChain BASE_CHAIN_CONFIG) = Reject e ->
     readable (error (hook (snd (connect env w))))) /\
  (forall a c e, p eth_requestAccounts = Resolve a -> p eth_chainId = Resolve c ->
     c <> VString BASE_CHAIN_ID ->
     p (wallet_switchEthereumChain BASE_CHAIN_ID) = Reject e ->
     unknown_chain (p (wallet_switchEthereumChain BASE_CHAIN_ID)) = false ->
     error (hook (snd (connect env w))) = None).
Proof.
  intros Hp Hobj.
  assert (Hmsg : forall m, readable (Some (messageOr m "Failed to connect")))
    by (intros m; by apply readable_messageOr).
  pose proof (Hobj eth_requestAccounts) as H1.
  pose proof (Hobj eth_chainId) as H2.
  pose proof (Hobj (wallet_switchEthereumChain BASE_CHAIN_ID)) as H3.
  pose proof (Hobj (wallet_addEthereumChain BASE_CHAIN_CONFIG)) as H4.
  clear Hobj. unfold unknown_chain.
  run_connect. rewrite Hp. simpl.
  destruct (p eth_requestAccounts) as [a|[|c0 m0]]; simpl; [|congruence|].
  2: { repeat split; intros; try discriminate; apply Hmsg. }
  destruct (firstAccount a); simpl.
  all: destruct (p eth_chainId) as [c|[|c1 m1]]; simpl; [|congruence|].
  all: try (destruct (decide (c = VString BASE_CHAIN_ID)) as [->|Hc]; simpl).
  all: try (destruct (p (wallet_switchEthereumChain BASE_CHAIN_ID)) as [v|[|code msg]];
            simpl; [|congruence|]).
  all: try (destruct (decide (code = Some 4902%Z)) as [->|Hcode]; simpl).
  all: try (destruct (p (wallet_addEthereumChain BASE_CHAIN_CONFIG)) as [v'|[|c2 m2]];
            simpl; [|congruence|]).
  all: repeat split; intros; try discriminate; try apply Hmsg; try reflexivity;
       try congruence.
  all: match goal with
       | H : bool_decide _ = true |- _ => apply bool_decide_eq_true_1 in H; congruence
       | H : bool_decide _ = false |- _ => apply bool_decide_eq_false_1 in H; congruence
       end.
Qed.

(** C7, amended. For a provider that rejects with error objects, [connect]
    always resolves; [error] is set to a non-empty string when no provider
    is found and when the account request, the chain-id request or the
    add-chain request is rejected; a switch request rejected with a code
    other than 4902 is dropped and leaves [error] null. *)
Theorem connect_reports_failures env w :
  (forall p, getProvider env = Some p -> rejects_with_objects p) ->
  fst (connect env w) = inr tt /\
  (getProvider env = None -> readable (error (hook (snd (connect env w))))) /\
  (forall p, getProvider env = Some p ->
     (forall e, p eth_requestAccounts = Reject e ->
        readable (error (hook (snd (connect env w))))) /\
     (forall a e, p eth_requestAccounts = Resolve a -> p eth_chainId = Reject e ->
        readable (error (hook (snd (connect env w))))) /\
     (forall a c e, p eth_requestAccounts = Resolve a -> p eth_chainId = Resolve c ->
        c <> VString BASE_CHAIN_ID ->
        unknown_chain (p (wallet_switchEthereumChain BASE_CHAIN_ID)) = true ->
        p (wallet_addEthereumChain BASE_CHAIN_CONFIG) = Reject e ->
        readable (error (hook (snd (connect env w))))) /\
     (forall a c e, p eth_requestAccounts = Resolve a -> p eth_chainId = Resolve c ->
        c <> VString BASE_CHAIN_ID ->
        p (wallet_switchEthereumChain BASE_CHAIN_ID) = Reject e ->
        unknown_chain (p (wallet_switchEthereumChain BASE_CHAIN_ID)) = false ->
        error (hook (snd (connect env w))) = None)).
Proof.
  intros Hobj. destruct (getProvider env) as [p|] eqn:Hp.
  - destruct (connect_with_provider env p w Hp (Hobj p eq_refl)) as [Hres Hrest].
    split; [exact Hres|]. split; [discriminate|]. intros p' [= <-]. exact Hrest.
  - run_connect. rewrite Hp. simpl. split; [reflexivity|].
    split; [intros _; by eexists _, _ | intros p; discriminate].
Qed.

Lemma connect_reports_failures_witness :
  fst (connect (injected refusing_wallet) fresh_hook) = inr tt /\
  readable (error (hook (snd (connect (injected refusing_wallet) fresh_hook)))).
Proof.
  destruct (connect_reports_failures (injected refusing_wallet) fresh_hook)
    as (Hres & _ & Hprovider).
  - intros p [= <-] r. destruct r; discriminate.
  - destruct (Hprovider refusing_wallet eq_refl) as (_ & _ & Hadd & _).
    split; [exact Hres|].
    eapply Hadd; [reflexivity|reflexivity|discriminate|reflexivity|reflexivity].
Defined.

(** C9. [disconnect] sets the stored address to null; [isConnecting],
    [error] and the log of provider requests are as they were. *)
Theorem disconnect_clears_address_only w :
  disconnect w
  = (inr tt,
     {| hook := {| address := None;
                   isConnecting := isConnecting (hook w);
                   error := error (hook w) |};
        log := log w |}).
Proof. reflexivity. Qed.

End WalletFacts.

(** ** The enrichment pipeline *)

Module HeapFacts.

Lemma bind_returned {A B} (r : Run A) (k : A -> Run B) m a m' :
  r m = Returned (a, m') -> (r ≫= k) m = k a m'.
Proof. intros Hr. unfold mbind, Run_bind. by rewrite Hr. Qed.

Lemma view_holds h a its :
  view h a = Some its <-> exists es, h !! a = Some (Arr es) /\ holds h es its.
Proof.
  unfold view, holds. split.
  - destruct (h !! a) as [[o|es]|]; try discriminate.
    intros Hm. exists es. split; [done|]. by apply mapM_Some.
  - intros (es & -> & Hf). by apply mapM_Some.
Qed.

Lemma holds_length h es its : holds h es its -> length es = length its.
Proof. apply Forall2_length. Qed.

Lemma deref_obj h l it : deref h l = Some it <-> h !! l = Some (Obj it).
Proof.
  unfold deref. destruct (h !! l) as [[o|es]|]; split; intros Heq;
    try discriminate; congruence.
Qed.

(** Cells that hold objects are never overwritten: allocating a new cell
    and replacing an array keep every object where it was. *)
Lemma deref_alloc h c l it :
  deref h l = Some it -> deref (<[fresh (dom h) := c]> h) l = Some it.
Proof.
  intros Hd. apply deref_obj in Hd. apply deref_obj.
  rewrite lookup_insert_ne; [done|]. intros <-.
  pose proof (is_fresh (dom h)) as Hf. apply Hf, elem_of_dom. eauto.
Qed.

Lemma deref_write_array h a es es' l it :
  h !! a = Some (Arr es) -> deref h l = Some it ->
  deref (<[a := Arr es']> h) l = Some it.
Proof.
  intros Ha Hd. apply deref_obj in Hd. apply deref_obj.
  rewrite lookup_insert_ne; [done|]. intros <-. congruence.
Qed.

Lemma holds_alloc h c es its :
  holds h es its -> holds (<[fresh (dom h) := c]> h) es its.
Proof. intros Hh. eapply Forall2_impl; [exact Hh|]. intros l it. apply deref_alloc. Qed.

Lemma holds_write_array h a es0 es' es its :
  h !! a = Some (Arr es0) -> holds h es its -> holds (<[a := Arr es']> h) es its.
Proof.
  intros Ha Hh. eapply Forall2_impl; [exact Hh|]. intros l it.
  by apply deref_write_array with es0.
Qed.

Lemma holds_weaken h h' es its : h ⊆ h' -> holds h es its -> holds h' es its.
Proof.
  intros Hsub Hh. eapply Forall2_impl; [exact Hh|]. intros l it Hd. apply deref_obj in Hd.
  apply deref_obj. by eapply lookup_weaken.
Qed.

Lemma holds_update h es cur j l g :
  holds h es cur ->
  (forall it, cur !! j = Some it -> deref h l = Some (g it)) ->
  holds h (<[j := l]> es) (alter g j cur).
Proof.
  intros Hh Hl. unfold holds. rewrite (list_insert_alter es).
  apply Forall2_alter; [done|]. intros x y _ Hy _. by apply Hl.
Qed.

Lemma readArray_eq a m es :
  heap m !! a = Some (Arr es) -> readArray a m = Returned (es, m).
Proof. intros Ha. unfold readArray. by rewrite Ha. Qed.

Lemma readObject_eq l m o :
  deref (heap m) l = Some o -> readObject l m = Returned (o, m).
Proof. intros Hl. apply deref_obj in Hl. unfold readObject. by rewrite Hl. Qed.

Lemma element_eq a j m es l :
  heap m !! a = Some (Arr es) -> es !! j = Some l -> element a j m = Returned (l, m).
Proof.
  intros Ha Hj. unfold element. erewrite bind_returned by (by apply readArray_eq).
  by rewrite Hj.
Qed.

Lemma store_eq a j l m es :
  heap m !! a = Some (Arr es) -> (j < length es)%nat ->
  store a j l m
  = Returned (tt, {| heap := <[a := Arr (<[j := l]> es)]> (heap m);
                     calls := calls m; isLoadingOffers := isLoadingOffers m |}).
Proof.
  intros Ha Hj. unfold store. erewrite bind_returned by (by apply readArray_eq).
  by rewrite decide_True.
Qed.

Lemma copyArray_eq a m es :
  heap m !! a = Some (Arr es) ->
  copyArray a m
  = Returned (fresh (dom (heap m)),
              Build_Mem (<[fresh (dom (heap m)) := Arr es]> (heap m))
                (calls m) (isLoadingOffers m)).
Proof.
  intros Ha. unfold copyArray. by erewrite bind_returned by (by apply readArray_eq).
Qed.

Lemma slice_eq a from count m es :
  heap m !! a = Some (Arr es) ->
  slice a from count m
  = Returned (fresh (dom (heap m)),
              Build_Mem (<[fresh (dom (heap m)) := Arr (take count (drop from es))]> (heap m))
                (calls m) (isLoadingOffers m)).
Proof.
  intros Ha. unfold slice. by erewrite bind_returned by (by apply readArray_eq).
Qed.

Lemma traverse_reads {A B} (g : A -> Run B) (R : A -> B -> Prop) l m :
  (forall x, x ∈ l -> exists y, g x m = Returned (y, m) /\ R x y) ->
  exists ys, traverse g l m = Returned (ys, m) /\ Forall2 R l ys.
Proof.
  induction l as [|x l IH]; intros Hg; simpl.
  - exists []. split; [done|constructor].
  - destruct (Hg x) as (y & Hy & HR); [apply elem_of_cons; by left|].
    destruct IH as (ys & Hys & HF).
    { intros x' Hx'. apply Hg. apply elem_of_cons. by right. }
    exists (y :: ys). split; [|by constructor].
    erewrite bind_returned by exact Hy. erewrite bind_returned by exact Hys. done.
Qed.

Lemma fresh_lookup (h : gmap loc Cell) : h !! fresh (dom h) = None.
Proof. apply not_elem_of_dom, is_fresh. Qed.

Lemma frame_alloc (h0 h : gmap loc Cell) c : h0 ⊆ h -> h0 ⊆ <[fresh (dom h) := c]> h.
Proof.
  intros Hsub. apply insert_subseteq_r; [|done].
  destruct (h0 !! fresh (dom h)) as [c'|] eqn:Hl; [|done].
  pose proof (lookup_weaken _ _ _ _ Hl Hsub) as Hl'. rewrite fresh_lookup in Hl'. done.
Qed.

Lemma frame_write (h0 h : gmap loc Cell) a c :
  h0 !! a = None -> h0 ⊆ h -> h0 ⊆ <[a := c]> h.
Proof. intros Ha Hsub. by apply insert_subseteq_r. Qed.

End HeapFacts.

Module ListFacts.

Lemma lookup_enriched_below f n its j :
  enriched_below f n its !! j
  = (fun it => if decide (j < n)%nat then f j it else it) <$> its !! j.
Proof. unfold enriched_below. apply list_lookup_imap. Qed.

Lemma length_enriched_below f n its : length (enriched_below f n its) = length its.
Proof. unfold enriched_below. apply length_imap. Qed.

Lemma enriched_below_0 f its : enriched_below f 0 its = its.
Proof.
  apply list_eq. intros j. rewrite lookup_enriched_below.
  by destruct (its !! j).
Qed.

Lemma enriched_below_ge f n its :
  (length its <= n)%nat -> enriched_below f n its = imap f its.
Proof.
  intros Hn. apply list_eq. intros j.
  rewrite lookup_enriched_below, list_lookup_imap.
  destruct (its !! j) eqn:Hj; simpl; [|done].
  apply lookup_lt_Some in Hj. case_decide; [done|lia].
Qed.

Lemma lookup_enrich_at f ps its j :
  NoDup ps ->
  enrich_at f ps its !! j = (if decide (j ∈ ps) then f j else fun it => it) <$> its !! j.
Proof.
  unfold enrich_at. revert its. induction ps as [|k ps IH]; intros its Hnd; simpl.
  - destruct (decide (j ∈ [])) as [Hin|Hin]; [by apply elem_of_nil in Hin|].
    by destruct (its !! j).
  - apply NoDup_cons in Hnd as [Hk Hnd]. rewrite IH by done.
    destruct (decide (j = k)) as [->|Hne].
    + rewrite list_lookup_alter_eq.
      destruct (decide (k ∈ ps)) as [|_]; [done|].
      destruct (decide (k ∈ k :: ps)) as [_|Hn]; [|by rewrite elem_of_cons in Hn; tauto].
      by destruct (its !! k).
    + rewrite list_lookup_alter_ne by done.
      destruct (decide (j ∈ ps)) as [Hin|Hin];
        destruct (decide (j ∈ k :: ps)) as [Hin'|Hin']; try done.
      * rewrite elem_of_cons in Hin'. tauto.
      * rewrite elem_of_cons in Hin'. tauto.
Qed.

Lemma length_enrich_at f ps its : length (enrich_at f ps its) = length its.
Proof.
  unfold enrich_at. revert its. induction ps as [|k ps IH]; intros its; simpl; [done|].
  rewrite IH. apply length_alter.
Qed.

(** Resuming the callbacks of the batch at [i] in any order enriches the
    positions [i .. i + BATCH - 1] that exist. *)
Lemma enrich_at_batch f B i order its :
  Permutation order (seq 0 (length (take B (drop i its)))) ->
  enrich_at f ((fun idx => i + idx)%nat <$> order) (enriched_below f i its)
  = enriched_below f (i + B) its.
Proof.
  intros Hperm.
  assert (Hnd : NoDup ((fun idx => i + idx)%nat <$> order)).
  { apply NoDup_fmap_2_strong; [intros x y _ _; lia|]. rewrite Hperm. apply NoDup_seq. }
  apply list_eq. intros j. rewrite lookup_enrich_at by done.
  rewrite !lookup_enriched_below.
  destruct (its !! j) as [it|] eqn:Hj; simpl; [|done].
  apply lookup_lt_Some in Hj. f_equal.
  rewrite length_take, length_drop in Hperm.
  destruct (decide (j ∈ (fun idx => (i + idx)%nat) <$> order)) as [Hin|Hin].
  - apply list_elem_of_fmap in Hin as (idx & -> & Hin).
    rewrite Hperm in Hin. apply elem_of_seq in Hin.
    rewrite decide_False by lia. rewrite decide_True by lia. done.
  - simpl. destruct (decide (j < i)%nat) as [Hlt|Hge].
    + rewrite decide_True by lia. done.
    + rewrite decide_False; [done|]. intros Hlt. apply Hin.
      apply list_elem_of_fmap. exists (j - i)%nat. split; [lia|].
      rewrite Hperm. apply elem_of_seq. lia.
Qed.

End ListFacts.

Module BatchFacts.
Import HeapFacts ListFacts.

Section Resume.
Variable f : nat -> CanvasItem -> CanvasItem.
Variable h0 : gmap loc Cell.
Variable its : list CanvasItem.
Variable e : loc.
Variable i : nat.
Variable es0 : list loc.
Variable n : nat.
Variable resume_at : nat -> Run unit.

Hypothesis He : h0 !! e = None.
Hypothesis Hresume : forall idx m es l it,
  (idx < n)%nat ->
  heap m !! e = Some (Arr es) ->
  es !! (i + idx)%nat = Some l ->
  es0 !! (i + idx)%nat = Some l ->
  its !! (i + idx)%nat = Some it ->
  deref (heap m) l = Some it ->
  resume_at idx m = Returned (tt, resumed f e i m es idx it).

Lemma forEach_resume order :
  NoDup order ->
  forall m es cur,
    heap m !! e = Some (Arr es) ->
    h0 ⊆ heap m ->
    holds (heap m) es cur ->
    (forall idx, idx ∈ order ->
       exists l it, (idx < n)%nat /\
                    es !! (i + idx)%nat = Some l /\ es0 !! (i + idx)%nat = Some l /\
                    cur !! (i + idx)%nat = Some it /\ its !! (i + idx)%nat = Some it) ->
    exists m' es',
      forEach resume_at order m = Returned (tt, m') /\
      heap m' !! e = Some (Arr es') /\
      h0 ⊆ heap m' /\
      dom (heap m) ⊆ dom (heap m') /\
      holds (heap m') es' (enrich_at f ((fun idx => i + idx)%nat <$> order) cur) /\
      calls m' = calls m /\
      isLoadingOffers m' = isLoadingOffers m.
Proof.
  induction order as [|idx order IH]; intros Hnd m es cur Hes Hsub Hholds Hpos.
  - exists m, es. simpl. repeat split; done.
  - apply NoDup_cons in Hnd as [Hidx Hnd].
    destruct (Hpos idx) as (l & it & Hlt & Hl & Hl0 & Hcur & Hit);
      [apply elem_of_cons; by left|].
    pose proof (Forall2_lookup_lr _ _ _ _ _ _ Hholds Hl Hcur) as Hderef. simpl in Hderef.
    pose proof (Hresume idx m es l it Hlt Hes Hl Hl0 Hit Hderef) as Hrun.
    set (new := fresh (dom (heap m))) in *.
    assert (Hnew : heap m !! new = None) by apply fresh_lookup.
    assert (Hne : new <> e) by (intros Heq; rewrite Heq, Hes in Hnew; discriminate).
    destruct (IH Hnd (resumed f e i m es idx it) (<[(i + idx)%nat := new]> es)
                (alter (f (i + idx)%nat) (i + idx)%nat cur))
      as (m' & es' & Hrest & Hes' & Hsub' & Hdom & Hholds' & Hcalls & Hload).
    + simpl. apply lookup_insert_eq.
    + simpl. apply frame_write; [done|]. by apply frame_alloc.
    + simpl. apply holds_update.
      * eapply holds_write_array.
        { rewrite lookup_insert_ne by done. exact Hes. }
        by apply holds_alloc.
      * intros it' Hit'. rewrite Hcur in Hit'. injection Hit' as <-.
        apply deref_obj. rewrite lookup_insert_ne by done. apply lookup_insert_eq.
    + intros idx' Hin. assert (idx' <> idx) by (intros ->; done).
      destruct (Hpos idx') as (l' & it' & Hlt' & Hl' & Hl0' & Hcur' & Hit');
        [apply elem_of_cons; by right|].
      exists l', it'. rewrite list_lookup_insert_ne by lia.
      rewrite list_lookup_alter_ne by lia. done.
    + exists m', es'. split.
      { simpl. unfold mbind, Run_bind. rewrite Hrun. exact Hrest. }
      repeat split; try done.
      etrans; [|exact Hdom]. simpl. rewrite !dom_insert. set_solver.
Qed.

End Resume.
End BatchFacts.

Module RestBatchFacts.
Import HeapFacts ListFacts BatchFacts Rest RestPipeline.

Section Batch.
Context `{JsRuntime}.
Variable api : Api.
Variable sched : Schedule.
Hypothesis Hfair : fair sched.

Lemma rest_batch_enriches h0 its :
  batch_ok (enrichedItem api) h0 its BATCH (batch api sched).
Proof.
  intros e i m es He Hsub Hes Hholds.
  pose proof (holds_length _ _ _ Hholds) as Hlen.
  rewrite length_enriched_below in Hlen.
  set (p := fresh (dom (heap m))).
  set (m1 := {| heap := <[p := Arr (take BATCH (drop i es))]> (heap m);
                calls := calls m; isLoadingOffers := isLoadingOffers m |}).
  set (n := length (take BATCH (drop i es))).
  assert (Hp : heap m !! p = None) by apply fresh_lookup.
  assert (Hpe : p <> e) by (intros Heq; rewrite Heq, Hes in Hp; discriminate).
  assert (Hes1 : heap m1 !! e = Some (Arr es)) by (simpl; by rewrite lookup_insert_ne).
  assert (Hn : n = length (take BATCH (drop i its))).
  { unfold n. rewrite !length_take, !length_drop. lia. }
  assert (Hpos : forall idx, (idx < n)%nat ->
            exists l it, es !! (i + idx)%nat = Some l /\ its !! (i + idx)%nat = Some it /\
                         deref (heap m1) l = Some it).
  { intros idx Hidx. unfold n in Hidx. rewrite length_take, length_drop in Hidx.
    destruct (lookup_lt_is_Some_2 es (i + idx)%nat) as [l Hl]; [lia|].
    destruct (lookup_lt_is_Some_2 its (i + idx)%nat) as [it Hit]; [lia|].
    exists l, it. repeat split; try done. simpl. apply deref_alloc.
    eapply (Forall2_lookup_lr _ _ _ _ _ _ Hholds Hl).
    rewrite lookup_enriched_below, Hit. simpl. by rewrite decide_False by lia. }
  destruct (traverse_reads (start api e i)
              (fun idx t => exists l it, es !! (i + idx)%nat = Some l /\
                                         its !! (i + idx)%nat = Some it /\
                 t = {| p_idx := idx; p_item := l;
                        p_listingData :=
                          fetchBestListing (best_listing_endpoint api (i + idx) (id it));
                        p_offerData :=
                          fetchBestOffer (best_offer_endpoint api (i + idx) (id it)) |})
              (seq 0 n) m1) as (pending & Hpending & Hshape).
  { intros idx Hidx. apply elem_of_seq in Hidx.
    destruct (Hpos idx) as (l & it & Hl & Hit & Hd); [lia|].
    eexists. split; [|exists l, it; eauto]. unfold start.
    erewrite bind_returned by (by eapply element_eq).
    erewrite bind_returned by (by apply readObject_eq). done. }
  destruct (forEach_resume (enrichedItem api) h0 its e i es n
              (fun idx => match pending !! idx with
                          | Some t => resume e i t
                          | None => mret tt
                          end) He) with (order := sched i n) (m := m1) (es := es)
              (cur := enriched_below (enrichedItem api) i its)
    as (m' & es' & Hrun & Hes' & Hsub' & Hdom & Hholds' & Hcalls & Hload).
  - intros idx m2 es2 l it Hidx Hes2 Hl2 Hl0 Hit Hd.
    destruct (Forall2_lookup_l _ _ _ idx idx Hshape) as (t & Ht & l' & it' & Hl' & Hit' & ->).
    { apply lookup_seq. lia. }
    rewrite Ht. assert (l' = l) as -> by congruence. assert (it' = it) as -> by congruence.
    unfold resume. simpl.
    erewrite bind_returned by (by apply readObject_eq).
    unfold mbind at 1, Run_bind, alloc.
    erewrite store_eq.
    + reflexivity.
    + simpl. rewrite lookup_insert_ne; [exact Hes2|].
      intros Heq. pose proof (fresh_lookup (heap m2)) as Hf. rewrite Heq, Hes2 in Hf. done.
    + by apply lookup_lt_Some in Hl2.
  - rewrite (Hfair i n). apply NoDup_seq.
  - exact Hes1.
  - simpl. by apply frame_alloc.
  - simpl. by apply holds_alloc.
  - intros idx Hidx. rewrite (Hfair i n) in Hidx. apply elem_of_seq in Hidx.
    destruct (Hpos idx) as (l & it & Hl & Hit & Hd); [lia|].
    exists l, it. repeat split; try done; [lia|].
    rewrite lookup_enriched_below, Hit. simpl. by rewrite decide_False by lia.
  - exists m', es'. split.
    { unfold batch.
      erewrite bind_returned by (by apply slice_eq).
      erewrite bind_returned by (apply readArray_eq; simpl; apply lookup_insert_eq).
      fold n. erewrite bind_returned by exact Hpending. exact Hrun. }
    repeat split; try done.
    + etrans; [|exact Hdom]. simpl. rewrite dom_insert. set_solver.
    + rewrite (enrich_at_batch _ BATCH) in Hholds'; [done|]. rewrite <- Hn. apply Hfair.
Qed.

End Batch.
End RestBatchFacts.

Module SdkBatchFacts.
Import HeapFacts ListFacts BatchFacts SdkPipeline.

Section Batch.
Context `{JsRuntime}.
Variable api : Sdk.Api.
Variable sched : Schedule.
Hypothesis Hfair : fair sched.

Lemma sdk_batch_enriches h0 its :
  batch_ok (enrichedItem api) h0 its BATCH (batch api sched).
Proof.
  intros e i m es He Hsub Hes Hholds.
  pose proof (holds_length _ _ _ Hholds) as Hlen.
  rewrite length_enriched_below in Hlen.
  set (p := fresh (dom (heap m))).
  set (m1 := Build_Mem (<[p := Arr (take BATCH (drop i es))]> (heap m))
                (calls m) (isLoadingOffers m)).
  set (n := length (take BATCH (drop i es))).
  assert (Hp : heap m !! p = None) by apply fresh_lookup.
  assert (Hpe : p <> e) by (intros Heq; rewrite Heq, Hes in Hp; discriminate).
  assert (Hes1 : heap m1 !! e = Some (Arr es)) by (simpl; by rewrite lookup_insert_ne).
  assert (Hp1 : heap m1 !! p = Some (Arr (take BATCH (drop i es))))
    by (simpl; apply lookup_insert_eq).
  assert (Hn : n = length (take BATCH (drop i its))).
  { unfold n. rewrite !length_take, !length_drop. lia. }
  assert (Hpos : forall idx, (idx < n)%nat ->
            exists l it, es !! (i + idx)%nat = Some l /\ its !! (i + idx)%nat = Some it /\
                         deref (heap m1) l = Some it).
  { intros idx Hidx. unfold n in Hidx. rewrite length_take, length_drop in Hidx.
    destruct (lookup_lt_is_Some_2 es (i + idx)%nat) as [l Hl]; [lia|].
    destruct (lookup_lt_is_Some_2 its (i + idx)%nat) as [it Hit]; [lia|].
    exists l, it. repeat split; try done. simpl. apply deref_alloc.
    eapply (Forall2_lookup_lr _ _ _ _ _ _ Hholds Hl).
    rewrite lookup_enriched_below, Hit. simpl. by rewrite decide_False by lia. }
  destruct (traverse_reads (start api p i)
              (fun idx t => exists it, its !! (i + idx)%nat = Some it /\
                 t = {| p_idx := idx;
                        p_data := Sdk.fetchTokenMarketData
                                    (Sdk.getBestOffer api (i + idx) (id it))
                                    (Sdk.getBestListing api (i + idx) (id it)) |})
              (seq 0 n) m1) as (pending & Hpending & Hshape).
  { intros idx Hidx. apply elem_of_seq in Hidx.
    destruct (Hpos idx) as (l & it & Hl & Hit & Hd); [lia|].
    eexists. split; [|exists it; eauto]. unfold start.
    erewrite bind_returned.
    2: { eapply element_eq; [exact Hp1|].
         rewrite lookup_take_lt by (unfold n in Hidx; rewrite length_take in Hidx; lia).
         rewrite lookup_drop. exact Hl. }
    erewrite bind_returned by (by apply readObject_eq). done. }
  destruct (forEach_resume (enrichedItem api) h0 its e i es n
              (fun idx => match pending !! idx with
                          | Some t => resume e i t
                          | None => mret tt
                          end) He) with (order := sched i n) (m := m1) (es := es)
              (cur := enriched_below (enrichedItem api) i its)
    as (m' & es' & Hrun & Hes' & Hsub' & Hdom & Hholds' & Hcalls & Hload).
  - intros idx m2 es2 l it Hidx Hes2 Hl2 Hl0 Hit Hd.
    destruct (Forall2_lookup_l _ _ _ idx idx Hshape) as (t & Ht & it' & Hit' & ->).
    { apply lookup_seq. lia. }
    rewrite Ht. assert (it' = it) as -> by congruence.
    unfold resume. simpl.
    erewrite bind_returned by (by eapply element_eq).
    erewrite bind_returned by (by apply readObject_eq).
    unfold mbind at 1, Run_bind, alloc.
    erewrite store_eq.
    + reflexivity.
    + simpl. rewrite lookup_insert_ne; [exact Hes2|].
      intros Heq. pose proof (fresh_lookup (heap m2)) as Hf. rewrite Heq, Hes2 in Hf. done.
    + by apply lookup_lt_Some in Hl2.
  - rewrite (Hfair i n). apply NoDup_seq.
  - exact Hes1.
  - simpl. by apply frame_alloc.
  - simpl. by apply holds_alloc.
  - intros idx Hidx. rewrite (Hfair i n) in Hidx. apply elem_of_seq in Hidx.
    destruct (Hpos idx) as (l & it & Hl & Hit & Hd); [lia|].
    exists l, it. repeat split; try done; [lia|].
    rewrite lookup_enriched_below, Hit. simpl. by rewrite decide_False by lia.
  - exists m', es'. split.
    { unfold batch.
      erewrite bind_returned by (by apply slice_eq).
      erewrite bind_returned by (apply readArray_eq; simpl; apply lookup_insert_eq).
      fold n. fold p. erewrite bind_returned by exact Hpending. exact Hrun. }
    repeat split; try done.
    + etrans; [|exact Hdom]. simpl. rewrite dom_insert. set_solver.
    + rewrite (enrich_at_batch _ BATCH) in Hholds'; [done|]. rewrite <- Hn. apply Hfair.
Qed.

End Batch.
End SdkBatchFacts.

Module LoopFacts.
Import HeapFacts ListFacts.

Lemma ceil_div_0 B : (0 < B)%nat -> ceil_div 0 B = 0%nat.
Proof. intros HB. unfold ceil_div. apply Nat.div_small. lia. Qed.

Lemma ceil_div_step B n :
  (0 < B)%nat -> (0 < n)%nat -> ceil_div n B = S (ceil_div (n - B) B).
Proof.
  intros HB Hn. unfold ceil_div.
  destruct (decide (B <= n)%nat) as [Hle|Hlt].
  - replace (n + B - 1)%nat with ((n - B + B - 1) + 1 * B)%nat by lia.
    rewrite Nat.div_add by lia. lia.
  - replace (n - B)%nat with 0%nat by lia. simpl.
    rewrite (Nat.div_small (B - 1)) by lia.
    replace (n + B - 1)%nat with ((n - 1) + 1 * B)%nat by lia.
    rewrite Nat.div_add by lia. rewrite Nat.div_small by lia. done.
Qed.

Section Loop.
Variable B : nat.
Variable batch : loc -> nat -> Run unit.
Variable onProgress : bool.
Variable f : nat -> CanvasItem -> CanvasItem.
Variable h0 : gmap loc Cell.
Variable its : list CanvasItem.
Variable e : loc.
Hypothesis HB : (0 < B)%nat.
Hypothesis Hbatch : batch_ok f h0 its B batch.
Hypothesis He : h0 !! e = None.

Lemma batches_unfold fuel i :
  batches B batch onProgress e fuel i
  = (es ← readArray e;
     if decide (i < length es)%nat then
       match fuel with
       | O => unfinished
       | S fuel' =>
           batch e i;;
           (if onProgress then snapshot ← copyArray e; notify snapshot else mret tt);;
           batches B batch onProgress e fuel' (i + B)
       end
     else mret tt).
Proof. by destruct fuel. Qed.

Lemma batches_spec fuel :
  forall i m es,
    (length its <= i + fuel)%nat ->
    h0 ⊆ heap m ->
    heap m !! e = Some (Arr es) ->
    holds (heap m) es (enriched_below f i its) ->
    exists m' es',
      batches B batch onProgress e fuel i m = Returned (tt, m') /\
      heap m' !! e = Some (Arr es') /\
      h0 ⊆ heap m' /\
      holds (heap m') es' (imap f its) /\
      isLoadingOffers m' = isLoadingOffers m /\
      exists new,
        calls m' = calls m ++ new /\
        if onProgress then progress_ok f B h0 its i new else new = [].
Proof.
  induction fuel as [|fuel IH]; intros i m es Hfuel Hsub Hes Hholds;
    pose proof (holds_length _ _ _ Hholds) as Hlen;
    rewrite length_enriched_below in Hlen;
    rewrite batches_unfold;
    erewrite bind_returned by (by apply readArray_eq);
    destruct (decide (i < length es)%nat) as [Hlt|Hge].
  - lia.
  - exists m, es. repeat split; try done.
    + by rewrite enriched_below_ge in Hholds by lia.
    + exists []. split; [by rewrite app_nil_r|].
      destruct onProgress; [|done]. split.
      * replace (length its - i)%nat with 0%nat by lia. by rewrite ceil_div_0.
      * intros k s h Hk. done.
  - destruct (Hbatch e i m es He Hsub Hes Hholds)
      as (m1 & es1 & Hrun & Hes1 & Hsub1 & Hdom1 & Hholds1 & Hcalls1 & Hload1).
    erewrite bind_returned by exact Hrun.
    destruct onProgress.
    + set (s := fresh (dom (heap m1))).
      set (h2 := <[s := Arr es1]> (heap m1)).
      set (m3 := Build_Mem h2 (calls m1 ++ [(s, h2)]) (isLoadingOffers m1)).
      assert (Hs : heap m1 !! s = None) by apply fresh_lookup.
      assert (Hse : s <> e) by (intros Heq; rewrite Heq, Hes1 in Hs; discriminate).
      destruct (IH (i + B)%nat m3 es1) as (m' & es' & Hrest & Hes' & Hsub' & Hholds' & Hload' & new & Hcalls' & Hnew).
      * lia.
      * simpl. by apply frame_alloc.
      * simpl. unfold h2. by rewrite lookup_insert_ne.
      * simpl. by apply holds_alloc.
      * exists m', es'. split.
        { erewrite bind_returned; [exact Hrest|].
          erewrite bind_returned by (by apply copyArray_eq). reflexivity. }
        repeat split; try done; [by rewrite Hload'|].
        exists ((s, h2) :: new). split.
        { rewrite Hcalls'. simpl. rewrite Hcalls1. by rewrite <- app_assoc. }
        destruct Hnew as [Hcount Hsnaps]. split.
        { simpl. rewrite Hcount. rewrite (ceil_div_step B (length its - i)) by lia.
          do 2 f_equal. lia. }
        intros [|k] s' h' Hk; simpl in Hk.
        -- injection Hk as <- <-. repeat split.
           ++ destruct (h0 !! s) as [c|] eqn:Hl; [|done].
              pose proof (lookup_weaken _ _ _ _ Hl Hsub1) as Hl'. congruence.
           ++ by apply frame_alloc.
           ++ apply view_holds. exists es1. split; [apply lookup_insert_eq|].
              replace (i + (0 + 1) * B)%nat with (i + B)%nat by lia.
              by apply holds_alloc.
        -- destruct (Hsnaps k s' h' Hk) as (Hfresh & Hframe & Hview).
           repeat split; try done.
           replace (i + (S k + 1) * B)%nat with (i + B + (k + 1) * B)%nat by lia. done.
    + destruct (IH (i + B)%nat m1 es1) as (m' & es' & Hrest & Hes' & Hsub' & Hholds' & Hload' & new & Hcalls' & Hnew); try done; [lia|].
      exists m', es'. split.
      { erewrite bind_returned by reflexivity. exact Hrest. }
      repeat split; try done; [congruence|].
      exists new. split; [congruence|done].
  - exists m, es. repeat split; try done.
    + by rewrite enriched_below_ge in Hholds by lia.
    + exists []. split; [by rewrite app_nil_r|].
      destruct onProgress; [|done]. split.
      * replace (length its - i)%nat with 0%nat by lia. by rewrite ceil_div_0.
      * intros k s h Hk. done.
Qed.

End Loop.

Section Whole.
Variable B : nat.
Variable batch : loc -> nat -> Run unit.
Variable f : nat -> CanvasItem -> CanvasItem.
Hypothesis HB : (0 < B)%nat.

Lemma pipeline_spec onProgress items m its :
  view (heap m) items = Some its ->
  batch_ok f (heap m) its B batch ->
  exists r m',
    pipeline B batch onProgress items m = Returned (r, m') /\
    heap m ⊆ heap m' /\
    heap m !! r = None /\
    view (heap m') r = Some (imap f its) /\
    isLoadingOffers m' = false /\
    exists new,
      calls m' = calls m ++ new /\
      if onProgress then progress_ok f B (heap m) its 0 new else new = [].
Proof.
  intros Hview Hbatch. apply view_holds in Hview as (es & Hitems & Hholds).
  set (e := fresh (dom (heap m))).
  set (m1 := Build_Mem (<[e := Arr es]> (heap m)) (calls m) true).
  assert (He : heap m !! e = None) by apply fresh_lookup.
  destruct (batches_spec B batch onProgress f (heap m) its e HB Hbatch He
              (length es) 0 m1 es)
    as (m' & es' & Hrun & Hes' & Hsub' & Hholds' & Hload' & new & Hcalls' & Hnew).
  - rewrite (holds_length _ _ _ Hholds). lia.
  - simpl. by apply frame_alloc.
  - simpl. apply lookup_insert_eq.
  - simpl. rewrite enriched_below_0. by apply holds_alloc.
  - exists e, (Build_Mem (heap m') (calls m') false). split.
    { unfold pipeline. erewrite bind_returned by reflexivity.
      erewrite bind_returned by (by apply copyArray_eq).
      erewrite bind_returned by (apply readArray_eq; simpl; apply lookup_insert_eq).
      erewrite bind_returned by exact Hrun.
      reflexivity. }
    simpl. repeat split; try done.
    + apply view_holds. eauto.
    + exists new. done.
Qed.

End Whole.
End LoopFacts.

(** ** The owned-token fetch *)

Module PaginateFacts.

Section Paginate.
Context `{JsRuntime}.
Context {Req : Type}.
Variable mkReq : option string -> Req.
Variable call : nat -> Req -> Thrown + (list NftJson * option string).
Variable keep : NftJson -> bool.
Variable cap : nat.

Lemma paginate_spec fuel :
  forall results cursor sent sent' out,
    paginate mkReq call keep cap fuel results cursor sent = (sent', out) ->
    out <> Unfinished ->
    exists new,
      sent' = sent ++ new /\
      new !! 0%nat = Some (mkReq cursor) /\
      (forall k req, new !! k = Some req ->
         (is_Some (new !! S k) <->
          exists nfts next,
            call (length sent + k)%nat req = inr (nfts, next) /\
            truthy next = true /\
            (length results
             + length (List.filter keep (pages call (length sent) (take (S k) new))) < cap)%nat) /\
         (forall nfts next req',
            call (length sent + k)%nat req = inr (nfts, next) ->
            new !! S k = Some req' -> req' = mkReq next)) /\
      (forall rs, out = Returned rs ->
         rs = results ++ map (fun nft => ownedItem (identifier nft))
                           (List.filter keep (pages call (length sent) new))).
Proof.
  induction fuel as [|fuel IH]; intros results cursor sent sent' out Hrun Hfin; simpl in Hrun.
  { injection Hrun as <- <-. done. }
  destruct (call (length sent) (mkReq cursor)) as [err|[nfts next]] eqn:Hcall.
  { injection Hrun as <- <-. exists [mkReq cursor].
    split; [done|]. split; [done|]. split; [|intros rs; discriminate].
    intros [|k] req Hreq; [|done]. injection Hreq as <-.
    rewrite Nat.add_0_r. split; [|intros ??? _; discriminate].
    split; [intros [? ?]; discriminate|]. intros (? & ? & ? & _). congruence. }
  destruct (truthy next && (length (results ++ map (fun nft => ownedItem (identifier nft))
                                      (List.filter keep nfts)) <? cap)%nat) eqn:Hcond.
  - destruct (IH _ _ _ _ _ Hrun Hfin) as (new & -> & Hhead & Hsteps & Hres).
    exists (mkReq cursor :: new). rewrite <- app_assoc. split; [done|]. split; [done|].
    rewrite length_app in Hsteps, Hres. simpl in Hsteps, Hres.
    apply andb_true_iff in Hcond as [Hnext Hlen]. apply Nat.ltb_lt in Hlen.
    rewrite length_app, length_map in Hlen.
    split.
    + intros [|k] req Hreq; simpl in Hreq.
      * injection Hreq as <-. rewrite Nat.add_0_r. split.
        -- change ((mkReq cursor :: new) !! 1%nat) with (new !! 0%nat).
           split; [|by rewrite Hhead; eauto]. intros _. exists nfts, next.
           split; [done|]. split; [done|]. simpl.
           rewrite Hcall, app_nil_r. lia.
        -- intros nfts' next' req' Hc Hreq'. simpl in Hreq'. congruence.
      * destruct (Hsteps k req Hreq) as [Hiff Hchain].
        replace (length sent + S k)%nat with (length sent + 1 + k)%nat by lia.
        split; [|exact Hchain].
        change ((mkReq cursor :: new) !! S (S k)) with (new !! S k).
        rewrite Hiff.
        assert (Hcount :
          (length results
           + length (List.filter keep
                       (pages call (length sent) (take (S (S k)) (mkReq cursor :: new)))))%nat
          = (length (results ++ map (fun nft => ownedItem (identifier nft))
                                  (List.filter keep nfts))
             + length (List.filter keep
                         (pages call (length sent + 1) (take (S k) new))))%nat).
        { change (take (S (S k)) (mkReq cursor :: new))
            with (mkReq cursor :: take (S k) new).
          simpl pages. rewrite Hcall.
          replace (S (length sent)) with (length sent + 1)%nat by lia.
          rewrite List.filter_app, !length_app, length_map. lia. }
        split.
        -- intros (n' & x' & Hc & Ht & Hl). exists n', x'. rewrite Hcount. done.
        -- intros (n' & x' & Hc & Ht & Hl). exists n', x'. rewrite <- Hcount. done.
    + intros rs ->. rewrite (Hres rs eq_refl). simpl. rewrite Hcall.
      replace (S (length sent)) with (length sent + 1)%nat by lia.
      rewrite List.filter_app, map_app, app_assoc. done.
  - injection Hrun as <- <-. exists [mkReq cursor].
    split; [done|]. split; [done|]. split.
    + intros [|k] req Hreq; [|done]. injection Hreq as <-.
      rewrite Nat.add_0_r. split; [|intros ??? _; discriminate].
      split; [intros [? ?]; discriminate|].
      intros (nfts' & next' & Hc & Ht & Hl). rewrite Hcall in Hc.
      injection Hc as <- <-. simpl in Hl.
      rewrite Hcall, app_nil_r in Hl. rewrite Ht in Hcond. simpl in Hcond.
      apply Nat.ltb_ge in Hcond. rewrite length_app, length_map in Hcond. lia.
    + intros rs [= <-]. simpl. rewrite Hcall, app_nil_r. done.
Qed.




End Paginate.

Lemma filter_all {A} (l : list A) : List.filter (fun _ => true) l = l.
Proof. induction l as [|x l IH]; simpl; congruence. Qed.

End PaginateFacts.

Module OwnedTokensFacts.
Import PaginateFacts.

Section Claims.
Context `{JsRuntime}.


End Claims.


End OwnedTokensFacts.

(** ** Enrichment, market data and the invariants of the items *)

Module EnrichmentFacts.
Import HeapFacts ListFacts LoopFacts.

Section Variants.
Context `{JsRuntime}.

Lemma rest_enrich_spec api sched onProgress items m its :
  fair sched ->
  view (heap m) items = Some its ->
  exists r m',
    RestPipeline.enrichWithMarketData api sched onProgress items m = Returned (r, m') /\
    heap m ⊆ heap m' /\
    heap m !! r = None /\
    view (heap m') r = Some (imap (RestPipeline.enrichedItem api) its) /\
    isLoadingOffers m' = false /\
    exists new,
      calls m' = calls m ++ new /\
      if onProgress
      then progress_ok (RestPipeline.enrichedItem api) 4 (heap m) its 0 new
      else new = [].
Proof.
  intros Hfair Hview. apply pipeline_spec; [unfold RestPipeline.BATCH; lia|done|].
  by apply RestBatchFacts.rest_batch_enriches.
Qed.

Lemma sdk_enrich_spec api sched onProgress items m its :
  fair sched ->
  view (heap m) items = Some its ->
  exists r m',
    SdkPipeline.enrichWithMarketData api sched onProgress items m = Returned (r, m') /\
    heap m ⊆ heap m' /\
    heap m !! r = None /\
    view (heap m') r = Some (imap (SdkPipeline.enrichedItem api) its) /\
    isLoadingOffers m' = false /\
    exists new,
      calls m' = calls m ++ new /\
      if onProgress
      then progress_ok (SdkPipeline.enrichedItem api) 5 (heap m) its 0 new
      else new = [].
Proof.
  intros Hfair Hview. apply pipeline_spec; [unfold SdkPipeline.BATCH; lia|done|].
  by apply SdkBatchFacts.sdk_batch_enriches.
Qed.

End Variants.


Lemma fair_in_order : fair Scenario.in_order.
Proof. intros i n. reflexivity. Qed.

Lemma fair_reversed : fair Scenario.reversed.
Proof. intros i n. apply reverse_Permutation. Qed.


Lemma view_weaken h h' a its : h ⊆ h' -> view h a = Some its -> view h' a = Some its.
Proof.
  intros Hsub Hv. apply view_holds in Hv as (es & Ha & Hh). apply view_holds.
  exists es. split; [by eapply lookup_weaken|by eapply holds_weaken].
Qed.

Lemma progress_untouched f B h0 its new k s h :
  progress_ok f B h0 its 0 new ->
  new !! k = Some (s, h) ->
  exists snap, view h s = Some snap /\
    forall j, ((k + 1) * B <= j)%nat -> snap !! j = its !! j.
Proof.
  intros [_ Hsnap] Hk. destruct (Hsnap k s h Hk) as (_ & _ & Hv).
  eexists. split; [exact Hv|]. intros j Hj. rewrite lookup_enriched_below.
  destruct (its !! j); simpl; [|done]. by rewrite decide_False by lia.
Qed.

Section Claims.
Context `{JsRuntime}.


(** C5. The result of [enrichWithMarketData] has the length and the order
    of the input; the item at each position keeps [id], [day], [imageUrl]
    and [lastSale]; every order in which the callbacks of a batch resume
    gives the same result; and when the callback for a batch runs, no item
    of a later batch has been replaced. *)
Theorem enrichment_keeps_order :
  (forall api sched onProgress items m its,
     fair sched ->
     view (heap m) items = Some its ->
     exists r m' out new,
       RestPipeline.enrichWithMarketData api sched onProgress items m = Returned (r, m') /\
       view (heap m') r = Some out /\
       calls m' = calls m ++ new /\
       length out = length its /\
       (forall j it, its !! j = Some it ->
          exists it', out !! j = Some it' /\ same_canvas it' it) /\
       (forall sched', fair sched' ->
          exists r' m'',
            RestPipeline.enrichWithMarketData api sched' onProgress items m
            = Returned (r', m'') /\
            view (heap m'') r' = Some out) /\
       (forall k s h, new !! k = Some (s, h) ->
          exists snap, view h s = Some snap /\
            forall j, ((k + 1) * 4 <= j)%nat -> snap !! j = its !! j))
  /\
  (forall api sched onProgress items m its,
     fair sched ->
     view (heap m) items = Some its ->
     exists r m' out new,
       SdkPipeline.enrichWithMarketData api sched onProgress items m = Returned (r, m') /\
       view (heap m') r = Some out /\
       calls m' = calls m ++ new /\
       length out = length its /\
       (forall j it, its !! j = Some it ->
          exists it', out !! j = Some it' /\ same_canvas it' it) /\
       (forall sched', fair sched' ->
          exists r' m'',
            SdkPipeline.enrichWithMarketData api sched' onProgress items m
            = Returned (r', m'') /\
            view (heap m'') r' = Some out) /\
       (forall k s h, new !! k = Some (s, h) ->
          exists snap, view h s = Some snap /\
            forall j, ((k + 1) * 5 <= j)%nat -> snap !! j = its !! j)).
Proof.
  split; intros api sched onProgress items m its Hfair Hview.
  - destruct (rest_enrich_spec api sched onProgress items m its Hfair Hview)
      as (r & m' & Hrun & _ & _ & Hres & _ & new & Hcalls & Hnew).
    exists r, m', (imap (RestPipeline.enrichedItem api) its), new.
    split; [done|]. split; [done|]. split; [done|].
    split; [by rewrite length_imap|]. split; [|split].
    + intros j it Hj. eexists. rewrite list_lookup_imap, Hj. split; [reflexivity|].
      repeat split.
    + intros sched' Hfair'.
      destruct (rest_enrich_spec api sched' onProgress items m its Hfair' Hview)
        as (r' & m'' & Hrun' & _ & _ & Hres' & _).
      by exists r', m''.
    + intros k s h Hk. destruct onProgress; [|by subst new].
      by eapply progress_untouched.
  - destruct (sdk_enrich_spec api sched onProgress items m its Hfair Hview)
      as (r & m' & Hrun & _ & _ & Hres & _ & new & Hcalls & Hnew).
    exists r, m', (imap (SdkPipeline.enrichedItem api) its), new.
    split; [done|]. split; [done|]. split; [done|].
    split; [by rewrite length_imap|]. split; [|split].
    + intros j it Hj. eexists. rewrite list_lookup_imap, Hj. split; [reflexivity|].
      repeat split.
    + intros sched' Hfair'.
      destruct (sdk_enrich_spec api sched' onProgress items m its Hfair' Hview)
        as (r' & m'' & Hrun' & _ & _ & Hres' & _).
      by exists r', m''.
    + intros k s h Hk. destruct onProgress; [|by subst new].
      by eapply progress_untouched.
Qed.


End Claims.

Lemma enrichment_keeps_order_witness :
  exists r m',
    SdkPipeline.enrichWithMarketData (H := Scenario.runtime) Scenario.sdk_market
      Scenario.in_order false Scenario.owned Scenario.memory = Returned (r, m') /\
    option_map (map id) (view (heap m') r) = Some ["701"; "703"] /\
    exists r' m'',
      SdkPipeline.enrichWithMarketData (H := Scenario.runtime) Scenario.sdk_market
        Scenario.reversed false Scenario.owned Scenario.memory = Returned (r', m'') /\
      view (heap m'') r' = view (heap m') r.
Proof.
  destruct (enrichment_keeps_order (H := Scenario.runtime)) as [_ Hsdk].
  destruct (Hsdk Scenario.sdk_market Scenario.in_order false Scenario.owned Scenario.memory
              [Scenario.token701; Scenario.token703] fair_in_order eq_refl)
    as (r & m' & out & new & Hrun & Hview & _ & Hlen & Hsame & Hany & _).
  exists r, m'. split; [exact Hrun|].
  destruct (Hany Scenario.reversed fair_reversed) as (r' & m'' & Hrun' & Hview').
  split.
  - rewrite Hview. simpl. f_equal.
    destruct out as [|a [|b [|? ?]]]; try discriminate.
    destruct (Hsame 0%nat _ eq_refl) as (a' & [= <-] & Ha & _).
    destruct (Hsame 1%nat _ eq_refl) as (b' & [= <-] & Hb & _).
    simpl. by rewrite Ha, Hb.
  - exists r', m''. split; [exact Hrun'|]. by rewrite Hview, Hview'.
Defined.



End EnrichmentFacts.

Module MarketDataFacts.
Import EnrichmentFacts.

Section Fetch.
Context `{JsRuntime}.

Lemma truthy_Some s : truthy (Some s) = true <-> s <> "".
Proof. destruct s; simpl; split; intros; congruence. Qed.

Lemma fetchBestListing_found res p :
  Rest.listing_at res p ->
  Rest.fetchBestListing res = {| Rest.ld_listPrice := Some p; Rest.ld_isListed := true |}.
Proof.
  intros (listing & rest & current & raw & -> & Hc & Hv & Hraw & Hp). simpl.
  rewrite Hc, Hv. simpl. destruct raw; [done|]. by rewrite Hp.
Qed.

Lemma fetchBestListing_none res :
  (forall p, ~ Rest.listing_at res p) -> Rest.fetchBestListing res = Rest.not_listed.
Proof.
  intros Hnone. unfold Rest.fetchBestListing.
  destruct res as [e|st|[e|[|listing rest]]]; try done.
  destruct (Rest.price_current listing) as [current|] eqn:Hc; [|done].
  destruct (value current) as [raw|] eqn:Hv; [|done].
  destruct (truthy (Some raw)) eqn:Ht; [|done]. simpl.
  destruct (formatUnitsFloat raw _) as [p|] eqn:Hp; [|done].
  exfalso. apply (Hnone p). exists listing, rest, current, raw.
  repeat split; try done. by apply truthy_Some.
Qed.

Lemma fetchBestOffer_none res :
  (forall p, ~ Rest.offer_at res p) -> Rest.fetchBestOffer res = Rest.no_offer.
Proof.
  intros Hnone. unfold Rest.fetchBestOffer.
  destruct res as [e|st|[e|[|offer rest]]]; try done.
  destruct (Rest.price offer) as [pr|] eqn:Hc; [|done].
  destruct (value pr) as [raw|] eqn:Hv; [|done].
  destruct (truthy (Some raw)) eqn:Ht; [|done]. simpl.
  destruct (formatUnitsFloat raw _) as [p|] eqn:Hp; [|done].
  exfalso. apply (Hnone p). exists offer, rest, pr, raw.
  repeat split; try done. by apply truthy_Some.
Qed.


Lemma fetchBestListing_priced res :
  Rest.ld_isListed (Rest.fetchBestListing res) = true ->
  is_Some (Rest.ld_listPrice (Rest.fetchBestListing res)).
Proof.
  unfold Rest.fetchBestListing.
  destruct res as [e|st|[e|[|listing rest]]]; simpl; try discriminate.
  destruct (Rest.price_current listing) as [current|]; simpl; [|discriminate].
  destruct (truthy (value current)); simpl; [|discriminate].
  destruct (formatUnitsFloat _ _); simpl; [eauto|discriminate].
Qed.

Lemma fetchTokenMarketData_priced offerRes listingRes :
  Sdk.md_isListed (Sdk.fetchTokenMarketData offerRes listingRes) = true ->
  is_Some (Sdk.md_listPrice (Sdk.fetchTokenMarketData offerRes listingRes)).
Proof.
  unfold Sdk.fetchTokenMarketData.
  destruct offerRes as [e|[offer|]]; [| destruct (Sdk.priceOf (Sdk.price offer)) |];
    (destruct listingRes as [e'|[listing|]];
     [| destruct (Sdk.priceOf (Sdk.listing_price listing)) |]);
    simpl; try discriminate; eauto.
Qed.

(** C4. In the REST variant, enrichment always returns; for the item at
    each position, a best listing at price p gives listPrice = p and
    isListed = true, no listing gives listPrice = undefined and
    isListed = false, and no offer gives bestOffer = 0. *)
Theorem enrichment_tolerates_absence api sched onProgress items m its :
  fair sched ->
  view (heap m) items = Some its ->
  exists r m' out,
    RestPipeline.enrichWithMarketData api sched onProgress items m = Returned (r, m') /\
    view (heap m') r = Some out /\
    forall j it, its !! j = Some it ->
      exists it', out !! j = Some it' /\
        (forall p, Rest.listing_at (Rest.best_listing_endpoint api j (id it)) p ->
           listPrice it' = Some p /\ isListed it' = Some true) /\
        ((forall p, ~ Rest.listing_at (Rest.best_listing_endpoint api j (id it)) p) ->
           listPrice it' = None /\ isListed it' = Some false) /\
        ((forall p, ~ Rest.offer_at (Rest.best_offer_endpoint api j (id it)) p) ->
           bestOffer it' = zero).
Proof.
  intros Hfair Hview.
  destruct (rest_enrich_spec api sched onProgress items m its Hfair Hview)
    as (r & m' & Hrun & _ & _ & Hres & _).
  exists r, m', (imap (RestPipeline.enrichedItem api) its).
  split; [done|]. split; [done|]. intros j it Hj.
  eexists. rewrite list_lookup_imap, Hj. split; [reflexivity|].
  unfold RestPipeline.enrichedItem, Rest.withMarketData. simpl. split; [|split].
  - intros p Hp. by rewrite (fetchBestListing_found _ _ Hp).
  - intros Hnone. by rewrite (fetchBestListing_none _ Hnone).
  - intros Hnone. by rewrite (fetchBestOffer_none _ Hnone).
Qed.

End Fetch.

Lemma enrichment_tolerates_absence_witness :
  exists r m',
    RestPipeline.enrichWithMarketData (H := Scenario.runtime) Scenario.market
      Scenario.in_order true Scenario.owned Scenario.memory = Returned (r, m') /\
    option_map (map (fun it => (id it, listPrice it, isListed it))) (view (heap m') r)
    = Some [ ("701", Some Scenario.price_0_025, Some true);
             ("703", None, Some false) ].
Proof.
  destruct (enrichment_tolerates_absence (H := Scenario.runtime) Scenario.market
              Scenario.in_order true Scenario.owned Scenario.memory
              [Scenario.token701; Scenario.token703] fair_in_order eq_refl)
    as (r & m' & out & Hrun & Hview & Hitems).
  exists r, m'. split; [exact Hrun|].
  vm_compute in Hrun. injection Hrun as <- <-. reflexivity.
Defined.

End MarketDataFacts.

Module InvariantFacts.
Import EnrichmentFacts MarketDataFacts PaginateFacts.

Section Items.
Context `{JsRuntime}.





(** C8. When the user confirms the accept modal of an item whose
    [bestOfferOrderHash] is absent, [handleAcceptConfirm] shows the error
    toast "No valid offer found" and does nothing else: no call reaches the
    network or the wallet provider, and the state is unchanged. *)
Theorem accept_without_offer_rejected ctx st modal :
  CanvasList.confirmable ctx st modal ->
  bestOfferOrderHash (CanvasList.item modal) = None ->
  CanvasList.handleAcceptConfirm ctx st
  = (st, [CanvasList.ShowToast "No valid offer found" CanvasList.error]) /\
  List.filter CanvasList.is_external_call (snd (CanvasList.handleAcceptConfirm ctx st)) = [] /\
  CanvasList.items (fst (CanvasList.handleAcceptConfirm ctx st)) = CanvasList.items st.
Proof.
  intros [Haddr Hmodal] Hhash.
  assert (Heq : CanvasList.handleAcceptConfirm ctx st
                = (st, [CanvasList.ShowToast "No valid offer found" CanvasList.error])).
  { unfold CanvasList.handleAcceptConfirm. by rewrite Hmodal, Haddr, Hhash. }
  rewrite Heq. done.
Qed.

End Items.



Lemma accept_without_offer_rejected_witness :
  CanvasList.handleAcceptConfirm (H := Scenario.runtime) Scenario.connected Scenario.accept_703
  = (Scenario.accept_703,
     [CanvasList.ShowToast "No valid offer found" CanvasList.error]).
Proof.
  apply (accept_without_offer_rejected (H := Scenario.runtime) Scenario.connected
           Scenario.accept_703
           {| CanvasList.type := CanvasList.accept_modal;
              CanvasList.item := Scenario.token703 |}).
  - split; reflexivity.
  - reflexivity.
Defined.

End InvariantFacts.

(** * Further properties *)

(** ** The wallet adapter and the auto-sync *)

Module WalletMoreFacts.
Import Wallet App.


(** X2. [connect] sends its requests in a fixed order and never more than
    these four: the account request, the chain-id request, the switch and
    the add; it never sends [eth_accounts]. Whatever the provider does,
    also when [connect] rejects, it ends with [isConnecting] false. *)
Theorem connect_request_order env w :
  issued (connect env) w
    `prefix_of` [eth_requestAccounts; eth_chainId;
                 wallet_switchEthereumChain BASE_CHAIN_ID;
                 wallet_addEthereumChain BASE_CHAIN_CONFIG] /\
  isConnecting (hook (snd (connect env w))) = false.
Proof.
  split; [|apply WalletFacts.connect_clears_isConnecting].
  run_connect. destruct (getProvider env) as [p|]; simpl.
  2: { rewrite drop_all. by eexists. }
  destruct (p eth_requestAccounts) as [a|[|c0 m0]]; simpl.
  2,3: rewrite drop_app_length; by eexists.
  destruct (firstAccount a); simpl.
  all: destruct (p eth_chainId) as [c|[|c1 m1]]; simpl.
  all: try (destruct (decide (c = VString BASE_CHAIN_ID)); simpl).
  all: try (destruct (p (wallet_switchEthereumChain BASE_CHAIN_ID)) as [v|[|code msg]];
            simpl).
  all: try (destruct (decide (code = Some 4902%Z)); simpl).
  all: try (destruct (p (wallet_addEthereumChain BASE_CHAIN_CONFIG)) as [v'|[|c2 m2]];
            simpl).
  all: rewrite <- ?app_assoc; simpl; rewrite drop_app_length; by eexists.
Qed.

(** X3. On a wallet that is already on Base, [connect] sends the account
    request and the chain-id request and nothing else, resolves, clears
    [error] and stores the first account. *)
Theorem connect_on_base env p w accounts :
  getProvider env = Some p ->
  p eth_requestAccounts = Resolve accounts ->
  p eth_chainId = Resolve (VString BASE_CHAIN_ID) ->
  connect env w
  = (inr tt,
     {| hook := {| address := match firstAccount accounts with
                              | Some a => Some a
                              | None => address (hook w)
                              end;
                   isConnecting := false;
                   error := None |};
        log := log w ++ [eth_requestAccounts; eth_chainId] |}).
Proof.
  intros Hp Ha Hc. run_connect. rewrite Hp. simpl. rewrite Ha.
  destruct (firstAccount accounts); simpl; rewrite Hc; simpl;
    rewrite <- app_assoc; reflexivity.
Qed.

Lemma connect_on_base_witness :
  connect (injected base_wallet) fresh_hook
  = (inr tt,
     {| hook := {| address := Some "0x52908400098527886E0F7030069857D2E4169EE7";
                   isConnecting := false;
                   error := None |};
        log := [eth_requestAccounts; eth_chainId] |}).
Proof.
  apply (connect_on_base (injected base_wallet) base_wallet fresh_hook
           (VStrings ["0x52908400098527886E0F7030069857D2E4169EE7"]));
    reflexivity.
Defined.

(** X4. The address is stored before the chain is checked: when the
    account request resolves with a first account, that account is the
    address after [connect], whatever the chain-id, switch and add
    requests do. *)
Theorem connect_keeps_account env p w accounts a :
  getProvider env = Some p ->
  p eth_requestAccounts = Resolve accounts ->
  firstAccount accounts = Some a ->
  address (hook (snd (connect env w))) = Some a.
Proof.
  intros Hp Ha Hfirst. run_connect. rewrite Hp. simpl. rewrite Ha, Hfirst. simpl.
  destruct (p eth_chainId) as [c|[|c1 m1]]; simpl; try reflexivity.
  destruct (decide (c = VString BASE_CHAIN_ID)); simpl; try reflexivity.
  destruct (p (wallet_switchEthereumChain BASE_CHAIN_ID)) as [v|[|code msg]];
    simpl; try reflexivity.
  destruct (decide (code = Some 4902%Z)); simpl; try reflexivity.
  destruct (p (wallet_addEthereumChain BASE_CHAIN_CONFIG)) as [v'|[|c2 m2]]; reflexivity.
Qed.

Lemma connect_keeps_account_witness :
  address (hook (snd (connect (injected declining_wallet) fresh_hook)))
  = Some "0x52908400098527886E0F7030069857D2E4169EE7".
Proof.
  apply (connect_keeps_account (injected declining_wallet) declining_wallet fresh_hook
           (VStrings ["0x52908400098527886E0F7030069857D2E4169EE7"]));
    reflexivity.
Defined.

(** X5. When the account request is rejected, it is the only request that
    [connect] sends, and the address is left as it was. *)
Theorem connect_stops_at_rejected_accounts env p w e :
  getProvider env = Some p ->
  p eth_requestAccounts = Reject e ->
  issued (connect env) w = [eth_requestAccounts] /\
  address (hook (snd (connect env w))) = address (hook w).
Proof.
  intros Hp Ha. run_connect. rewrite Hp. simpl. rewrite Ha.
  destruct e as [|code msg]; simpl; rewrite drop_app_length; done.
Qed.

Lemma connect_stops_at_rejected_accounts_witness :
  issued (connect (injected locked_wallet)) fresh_hook = [eth_requestAccounts] /\
  address (hook (snd (connect (injected locked_wallet) fresh_hook))) = None.
Proof.
  apply (connect_stops_at_rejected_accounts (injected locked_wallet) locked_wallet fresh_hook
           (ThrowObject (Some 4001%Z) (Some "User rejected the request.")));
    reflexivity.
Defined.

(** X6. A provider that rejects the account request with [undefined] or
    [null] makes [connect] itself reject: reading [err.message] in the
    handler throws, so no error is stored, and only the [finally] block
    runs. *)
Theorem connect_rejects_on_nullish env p w :
  getProvider env = Some p ->
  p eth_requestAccounts = Reject ThrowNullish ->
  fst (connect env w) = inl (TypeError "message") /\
  error (hook (snd (connect env w))) = None /\
  isConnecting (hook (snd (connect env w))) = false.
Proof. intros Hp Ha. run_connect. rewrite Hp. simpl. rewrite Ha. done. Qed.

Lemma connect_rejects_on_nullish_witness :
  fst (connect (injected (fun _ => Reject ThrowNullish)) fresh_hook)
  = inl (TypeError "message").
Proof.
  apply (connect_rejects_on_nullish (injected (fun _ => Reject ThrowNullish))
           (fun _ => Reject ThrowNullish) fresh_hook); reflexivity.
Defined.

(** X7. The auto-sync connects at most once: after a run that found no
    address, later runs send no request and change nothing, also after a
    disconnect; and the run itself ends with [isSyncingWallet] false even
    when [connect] rejects. *)
Theorem auto_sync_runs_once env app w :
  didAutoConnect app = false ->
  truthy (address (hook w)) = false ->
  let app1 := fst (syncWallet env app w) in
  let w1 := snd (syncWallet env app w) in
  w1 = snd (connect env w) /\
  isSyncingWallet app1 = false /\
  (forall w2, syncWallet env app1 w2 = (app1, w2)) /\
  syncWallet env app1 (snd (disconnect w1)) = (app1, snd (disconnect w1)).
Proof.
  intros Href Haddr. unfold syncWallet. rewrite Href, Haddr. simpl. done.
Qed.

Lemma auto_sync_runs_once_witness :
  log (snd (syncWallet (injected mainnet_wallet) fresh_app fresh_hook))
  = [eth_requestAccounts; eth_chainId; wallet_switchEthereumChain BASE_CHAIN_ID;
     wallet_addEthereumChain BASE_CHAIN_CONFIG] /\
  forall w2,
    syncWallet (injected mainnet_wallet)
      (fst (syncWallet (injected mainnet_wallet) fresh_app fresh_hook)) w2
    = (fst (syncWallet (injected mainnet_wallet) fresh_app fresh_hook), w2).
Proof.
  destruct (auto_sync_runs_once (injected mainnet_wallet) fresh_app fresh_hook
              eq_refl eq_refl) as (Hw & _ & Honce & _).
  split; [by rewrite Hw | exact Honce].
Defined.

End WalletMoreFacts.

(** ** The owned-token fetch, continued *)

Module OwnedTokensMoreFacts.
Import PaginateFacts.

Section Paginate.
Context `{JsRuntime}.
Context {Req : Type}.
Variable mkReq : option string -> Req.
Variable call : nat -> Req -> Thrown + (list NftJson * option string).
Variable keep : NftJson -> bool.
Variable cap : nat.

(** The loop throws exactly what a failed request threw, and only its
    last request can have failed. *)
Lemma paginate_outcome fuel :
  forall results cursor sent sent' out,
    paginate mkReq call keep cap fuel results cursor sent = (sent', out) ->
    out <> Unfinished ->
    forall k req, (length sent <= k)%nat -> sent' !! k = Some req ->
      match call k req with
      | inl e => out = Threw e /\ S k = length sent'
      | inr _ => S k = length sent' -> exists rs, out = Returned rs
      end.
Proof.
  induction fuel as [|fuel IH]; intros results cursor sent sent' out Hrun Hfin k req Hk Hreq;
    simpl in Hrun.
  { injection Hrun as <- <-. done. }
  destruct (call (length sent) (mkReq cursor)) as [err|[nfts next]] eqn:Hcall.
  - injection Hrun as <- <-. rewrite lookup_app_r in Hreq by done.
    destruct (k - length sent)%nat as [|j] eqn:Hj; [|done].
    injection Hreq as <-. replace k with (length sent) by lia.
    rewrite Hcall, length_app. simpl. split; [done|lia].
  - destruct (truthy next && _) eqn:Hcond.
    + destruct (decide (k = length sent)) as [->|Hne].
      * assert (Hlen : (length (sent ++ [mkReq cursor]) <= length sent')%nat).
        { destruct (paginate_spec _ _ _ _ _ _ _ _ _ _ Hrun Hfin) as (new & -> & _).
          rewrite !length_app. lia. }
        assert (Hhere : sent' !! length sent = Some (mkReq cursor)).
        { destruct (paginate_spec _ _ _ _ _ _ _ _ _ _ Hrun Hfin) as (new & -> & _).
          rewrite <- app_assoc. rewrite lookup_app_r by done.
          by rewrite Nat.sub_diag. }
        rewrite Hhere in Hreq. injection Hreq as <-. rewrite Hcall.
        intros Hlast. exfalso.
        destruct (paginate_spec _ _ _ _ _ _ _ _ _ _ Hrun Hfin) as (new & Heq & Hhead & _).
        apply lookup_lt_Some in Hhead. rewrite Heq, !length_app in Hlast. simpl in Hlast. lia.
      * apply (IH _ _ _ _ _ Hrun Hfin k req); [rewrite length_app; simpl; lia|done].
    + injection Hrun as <- <-. rewrite lookup_app_r in Hreq by done.
      destruct (k - length sent)%nat as [|j] eqn:Hj; [|done].
      injection Hreq as <-. replace k with (length sent) by lia.
      rewrite Hcall. eauto.
Qed.

(** The cap is checked after a page is added: the result exceeds it by
    less than one page. *)
Lemma paginate_bound P fuel :
  (forall k req nfts next, call k req = inr (nfts, next) -> (length nfts <= P)%nat) ->
  forall results cursor sent sent' rs,
    (length results < cap)%nat ->
    paginate mkReq call keep cap fuel results cursor sent = (sent', Returned rs) ->
    (length rs < cap + P)%nat.
Proof.
  intros Hpage. induction fuel as [|fuel IH]; intros results cursor sent sent' rs Hlt Hrun;
    simpl in Hrun; [discriminate|].
  destruct (call (length sent) (mkReq cursor)) as [err|[nfts next]] eqn:Hcall;
    [discriminate|].
  destruct (truthy next && _) eqn:Hcond.
  - apply andb_true_iff in Hcond as [_ Hlen]. apply Nat.ltb_lt in Hlen.
    by apply (IH _ _ _ _ _ Hlen Hrun).
  - injection Hrun as <- <-. rewrite length_app, length_map.
    pose proof (Hpage _ _ _ _ Hcall) as Hn.
    pose proof (List.filter_length_le keep nfts). lia.
Qed.

End Paginate.

Section Claims.
Context `{JsRuntime}.

(** X8. The owned-token fetch returns one item for every tracked NFT of
    the pages it received, in the order of the pages and with duplicates
    kept: all NFTs in the REST variant, those of the BasePaint contract in
    the SDK variant. *)
Theorem owned_tokens_in_page_order :
  (forall api fuel address sent rs,
     Rest.fetchNFTsByOwner api fuel address = (sent, Returned rs) ->
     rs = map (fun nft => ownedItem (identifier nft))
            (pages (Rest.nftsCall api) 0 sent)) /\
  (forall api fuel address sent rs,
     Sdk.ownedPages api fuel address = (sent, Returned rs) ->
     rs = map (fun nft => ownedItem (identifier nft))
            (List.filter Sdk.isBasePaint (pages (Sdk.nftsCall api) 0 sent))).
Proof.
  split; intros api fuel address sent rs Hrun.
  - destruct (paginate_spec _ _ _ _ _ _ _ _ _ _ Hrun) as (new & Hsent & _ & _ & Hres);
      [done|].
    simpl in Hsent. subst new. rewrite (Hres _ eq_refl). simpl. by rewrite filter_all.
  - destruct (paginate_spec _ _ _ _ _ _ _ _ _ _ Hrun) as (new & Hsent & _ & _ & Hres);
      [done|].
    simpl in Hsent. subst new. by rewrite (Hres _ eq_refl).
Qed.

(** X9. The result cap is soft. With pages of at most 200 NFTs the REST
    variant returns fewer than 700 items, and with pages of at most 50 the
    SDK variant returns fewer than 250: the cap is tested after a page has
    been added. *)
Theorem owned_tokens_soft_cap :
  (forall api fuel address sent rs,
     (forall k req page, Rest.nfts_endpoint api k req = Ok (inr page) ->
        (length (default [] (Rest.nfts page)) <= 200)%nat) ->
     Rest.fetchNFTsByOwner api fuel address = (sent, Returned rs) ->
     (length rs < 700)%nat) /\
  (forall api fuel address sent rs,
     (forall k req page, Sdk.getNFTsByAccount api k req = inr page ->
        (length (Sdk.nfts page) <= 50)%nat) ->
     Sdk.ownedPages api fuel address = (sent, Returned rs) ->
     (length rs < 250)%nat).
Proof.
  split; intros api fuel address sent rs Hpage Hrun.
  - apply (paginate_bound _ _ _ _ 200 _) in Hrun; [done| |simpl; lia].
    intros k req nfts next Hcall. unfold Rest.nftsCall in Hcall.
    destruct (Rest.nfts_endpoint api k req) as [e|st|[e|page]] eqn:Hend; try discriminate.
    injection Hcall as <- <-. by eapply Hpage.
  - apply (paginate_bound _ _ _ _ 50 _) in Hrun; [done| |simpl; lia].
    intros k req nfts next Hcall. unfold Sdk.nftsCall in Hcall.
    destruct (Sdk.getNFTsByAccount api k req) as [e|page] eqn:Hend; try discriminate.
    injection Hcall as <- <-. by eapply Hpage.
Qed.

(** X10. The first request carries no cursor, and each further request
    carries the [next] cursor of the answer before it. *)
Theorem owned_tokens_cursor_chain :
  (forall api fuel address sent out,
     Rest.fetchNFTsByOwner api fuel address = (sent, out) ->
     out <> Unfinished ->
     (exists req, sent !! 0%nat = Some req /\ Rest.next_param req = None) /\
     (forall k req nfts next req',
        sent !! k = Some req -> Rest.nftsCall api k req = inr (nfts, next) ->
        sent !! S k = Some req' -> Rest.next_param req' = next)) /\
  (forall api fuel address sent out,
     Sdk.ownedPages api fuel address = (sent, out) ->
     out <> Unfinished ->
     (exists req, sent !! 0%nat = Some req /\ Sdk.cursor req = None) /\
     (forall k req nfts next req',
        sent !! k = Some req -> Sdk.nftsCall api k req = inr (nfts, next) ->
        sent !! S k = Some req' -> Sdk.cursor req' = next)).
Proof.
  split; intros api fuel address sent out Hrun Hfin.
  - destruct (paginate_spec _ _ _ _ _ _ _ _ _ _ Hrun Hfin)
      as (new & Hsent & Hhead & Hsteps & _).
    simpl in Hsent, Hsteps. subst new. split; [eauto|].
    intros k req nfts next req' Hreq Hcall Hreq'.
    destruct (Hsteps k req Hreq) as [Hiff Hchain].
    rewrite (Hchain _ _ _ Hcall Hreq').
    destruct (proj1 Hiff) as (nfts' & next' & Hcall' & Htruthy & _); [eauto|].
    assert (next' = next) as -> by congruence.
    unfold Rest.nftsRequest. simpl. by rewrite Htruthy.
  - destruct (paginate_spec _ _ _ _ _ _ _ _ _ _ Hrun Hfin)
      as (new & Hsent & Hhead & Hsteps & _).
    simpl in Hsent, Hsteps. subst new. split; [eauto|].
    intros k req nfts next req' Hreq Hcall Hreq'.
    destruct (Hsteps k req Hreq) as [Hiff Hchain].
    rewrite (Hchain _ _ _ Hcall Hreq').
    destruct (proj1 Hiff) as (nfts' & next' & Hcall' & Htruthy & _); [eauto|].
    assert (next' = next) as -> by congruence.
    unfold Sdk.nftsRequest. simpl. by rewrite Htruthy.
Qed.

(** X11. The hooks around the fetch never throw. When a request fails, on
    whatever page, the hook returns the empty list, dropping the items of
    the pages before, and stores the failure's message (or a fallback) as
    [error]; when the fetch succeeds [error] is null; in both cases
    [isLoadingNFTs] ends false. *)
Theorem owned_tokens_hook_failure :
  (forall api fuel address st sent out,
     Rest.fetchNFTsByOwner api fuel address = (sent, out) ->
     out <> Unfinished ->
     RestHook.isLoadingNFTs (fst (RestHook.fetchOwnedBasePaints api fuel address st)) = false /\
     (forall k req e,
        sent !! k = Some req -> Rest.nftsCall api k req = inl e ->
        RestHook.fetchOwnedBasePaints api fuel address st
        = ({| RestHook.isLoadingNFTs := false;
              RestHook.isLoadingOffers := RestHook.isLoadingOffers st;
              RestHook.error := Some (Sdk.errorMessage e "Failed to fetch NFTs") |},
           Some [])) /\
     ((forall k req, sent !! k = Some req ->
         exists page, Rest.nftsCall api k req = inr page) ->
      exists rs, out = Returned rs /\
        snd (RestHook.fetchOwnedBasePaints api fuel address st) = Some rs /\
        RestHook.error (fst (RestHook.fetchOwnedBasePaints api fuel address st)) = None)) /\
  (forall api fuel address st sent out,
     Sdk.ownedPages api fuel address = (sent, out) ->
     out <> Unfinished ->
     Sdk.isLoadingNFTs (fst (Sdk.fetchOwnedBasePaints api fuel address st)) = false /\
     (forall k req e,
        sent !! k = Some req -> Sdk.nftsCall api k req = inl e ->
        Sdk.fetchOwnedBasePaints api fuel address st
        = ({| Sdk.isLoadingNFTs := false;
              Sdk.isLoadingOffers := Sdk.isLoadingOffers st;
              Sdk.error := Some (Sdk.errorMessage e "Failed to fetch owned NFTs") |},
           Some [])) /\
     ((forall k req, sent !! k = Some req ->
         exists page, Sdk.nftsCall api k req = inr page) ->
      exists rs, out = Returned rs /\
        snd (Sdk.fetchOwnedBasePaints api fuel address st) = Some rs /\
        Sdk.error (fst (Sdk.fetchOwnedBasePaints api fuel address st)) = None)).
Proof.
  split; intros api fuel address st sent out Hrun Hfin.
  - pose proof (paginate_outcome _ _ _ _ _ _ _ _ _ _ Hrun Hfin) as Hout.
    unfold RestHook.fetchOwnedBasePaints. rewrite Hrun. simpl. split; [|split].
    + by destruct out.
    + intros k req e Hreq Hcall. specialize (Hout k req). rewrite Hcall in Hout.
      destruct Hout as [-> _]; [simpl; lia|done|]. done.
    + intros Hall.
      destruct (paginate_spec _ _ _ _ _ _ _ _ _ _ Hrun Hfin) as (new & Hsent & Hhead & _).
      simpl in Hsent. subst new.
      destruct (lookup_lt_is_Some_2 sent (length sent - 1)) as [req Hreq].
      { apply lookup_lt_Some in Hhead. lia. }
      specialize (Hout _ req (Nat.le_0_l _) Hreq).
      destruct (Hall _ _ Hreq) as [page Hpage]. rewrite Hpage in Hout.
      destruct Hout as [rs ->]; [apply lookup_lt_Some in Hreq; lia|].
      exists rs. done.
  - pose proof (paginate_outcome _ _ _ _ _ _ _ _ _ _ Hrun Hfin) as Hout.
    unfold Sdk.fetchOwnedBasePaints. rewrite Hrun. simpl. split; [|split].
    + by destruct out.
    + intros k req e Hreq Hcall. specialize (Hout k req). rewrite Hcall in Hout.
      destruct Hout as [-> _]; [simpl; lia|done|]. done.
    + intros Hall.
      destruct (paginate_spec _ _ _ _ _ _ _ _ _ _ Hrun Hfin) as (new & Hsent & Hhead & _).
      simpl in Hsent. subst new.
      destruct (lookup_lt_is_Some_2 sent (length sent - 1)) as [req Hreq].
      { apply lookup_lt_Some in Hhead. lia. }
      specialize (Hout _ req (Nat.le_0_l _) Hreq).
      destruct (Hall _ _ Hreq) as [page Hpage]. rewrite Hpage in Hout.
      destruct Hout as [rs ->]; [apply lookup_lt_Some in Hreq; lia|].
      exists rs. done.
Qed.

End Claims.

Lemma owned_tokens_in_page_order_witness :
  [Scenario.token701; Scenario.token703]
  = map (fun nft => ownedItem (H := Scenario.runtime) (identifier nft))
      (pages (Rest.nftsCall Scenario.market) 0
         (fst (Rest.fetchNFTsByOwner (H := Scenario.runtime) Scenario.market 3 "0xabc"))).
Proof.
  destruct (owned_tokens_in_page_order (H := Scenario.runtime)) as [Hrest _].
  apply (Hrest Scenario.market 3%nat "0xabc"). reflexivity.
Defined.

Lemma owned_tokens_soft_cap_witness :
  (length [Scenario.token701; Scenario.token703] < 700)%nat.
Proof.
  destruct (owned_tokens_soft_cap (H := Scenario.runtime)) as [Hrest _].
  apply (Hrest Scenario.market 3%nat "0xabc"
           (fst (Rest.fetchNFTsByOwner (H := Scenario.runtime) Scenario.market 3 "0xabc")));
    [|reflexivity].
  intros k req page [= <-].
  change (length (List.filter
                    (fun nft => bool_decide (collection nft = Rest.collection_param req))
                    Scenario.wallet_nfts) <= 200)%nat.
  etrans; [apply List.filter_length_le|]. simpl. lia.
Defined.

Lemma owned_tokens_cursor_chain_witness :
  exists first second,
    fst (Rest.fetchNFTsByOwner (H := Scenario.runtime) RestHook.flaky_market 3 "0xabc")
    = [first; second] /\
    Rest.next_param first = None /\ Rest.next_param second = Some "page-2".
Proof.
  destruct (owned_tokens_cursor_chain (H := Scenario.runtime)) as [Hrest _].
  destruct (Hrest RestHook.flaky_market 3%nat "0xabc" _ _ eq_refl)
    as [(req & Hreq & Hnone) Hchain]; [discriminate|].
  eexists _, _. split; [reflexivity|]. split; [reflexivity|].
  apply (Hchain 0%nat _ _ _ _ eq_refl eq_refl eq_refl).
Defined.

Lemma owned_tokens_hook_failure_witness :
  RestHook.fetchOwnedBasePaints (H := Scenario.runtime) RestHook.flaky_market 3 "0xabc"
    RestHook.idle
  = ({| RestHook.isLoadingNFTs := false;
        RestHook.isLoadingOffers := false;
        RestHook.error := Some "OpenSea NFTs error: 500" |},
     Some []).
Proof.
  destruct (owned_tokens_hook_failure (H := Scenario.runtime)) as [Hrest _].
  destruct (Hrest RestHook.flaky_market 3%nat "0xabc" RestHook.idle _ _ eq_refl)
    as (_ & Hfail & _); [discriminate|].
  apply (Hfail 1%nat _ _ eq_refl eq_refl).
Defined.

End OwnedTokensMoreFacts.

(** ** Market data and enrichment, continued *)

Module EnrichmentMoreFacts.
Import HeapFacts ListFacts LoopFacts EnrichmentFacts MarketDataFacts.

Section Fetch.
Context `{JsRuntime}.

Lemma fetchBestListing_listed_iff res :
  Rest.ld_isListed (Rest.fetchBestListing res) = true
  <-> is_Some (Rest.ld_listPrice (Rest.fetchBestListing res)).
Proof.
  split; [apply fetchBestListing_priced|]. unfold Rest.fetchBestListing.
  destruct res as [e|st|[e|[|listing rest]]]; simpl; try (intros [? ?]; discriminate).
  destruct (Rest.price_current listing) as [current|]; simpl;
    [|intros [? ?]; discriminate].
  destruct (truthy (value current)); simpl; [|intros [? ?]; discriminate].
  destruct (formatUnitsFloat _ _); simpl; [done|intros [? ?]; discriminate].
Qed.

Lemma fetchTokenMarketData_listed_iff offerRes listingRes :
  Sdk.md_isListed (Sdk.fetchTokenMarketData offerRes listingRes) = true
  <-> is_Some (Sdk.md_listPrice (Sdk.fetchTokenMarketData offerRes listingRes)).
Proof.
  split; [apply fetchTokenMarketData_priced|]. unfold Sdk.fetchTokenMarketData.
  destruct offerRes as [e|[offer|]]; [| destruct (Sdk.priceOf (Sdk.price offer)) |];
    (destruct listingRes as [e'|[listing|]];
     [| destruct (Sdk.priceOf (Sdk.listing_price listing)) |]);
    simpl; try done; intros [? ?]; discriminate.
Qed.

Lemma fetchBestOffer_from_offer res :
  is_Some (Rest.od_orderHash (Rest.fetchBestOffer res))
  \/ is_Some (Rest.od_protocolAddress (Rest.fetchBestOffer res)) ->
  exists p, Rest.offer_at res p /\ Rest.od_bestOffer (Rest.fetchBestOffer res) = p.
Proof.
  assert (Hno : is_Some (Rest.od_orderHash Rest.no_offer)
                \/ is_Some (Rest.od_protocolAddress Rest.no_offer) -> False).
  { intros [[? ?]|[? ?]]; discriminate. }
  unfold Rest.fetchBestOffer.
  destruct res as [e|st|[e|[|offer rest]]]; try (intros Hs; by destruct Hno).
  destruct (Rest.price offer) as [pr|] eqn:Hpr; [|intros Hs; by destruct Hno].
  destruct (truthy (value pr)) eqn:Ht; [|intros Hs; by destruct Hno].
  destruct (value pr) as [raw|] eqn:Hraw; [|discriminate]. simpl default.
  destruct (formatUnitsFloat raw _) as [p|] eqn:Hp; [|intros Hs; by destruct Hno].
  intros _. exists p. split; [|done]. exists offer, rest, pr, raw.
  repeat split; try done. by apply truthy_Some.
Qed.

(** X12. In the SDK variant the two halves of the market data are read
    independently: what is reported about the listing does not depend on
    how the offer call ended, and what is reported about the offer does
    not depend on how the listing call ended. A rejected offer call leaves
    [bestOffer] at 0 and still lets the listing through. *)
Theorem market_data_halves_independent offerRes offerRes' listingRes listingRes' :
  Sdk.md_listPrice (Sdk.fetchTokenMarketData offerRes listingRes)
  = Sdk.md_listPrice (Sdk.fetchTokenMarketData offerRes' listingRes) /\
  Sdk.md_isListed (Sdk.fetchTokenMarketData offerRes listingRes)
  = Sdk.md_isListed (Sdk.fetchTokenMarketData offerRes' listingRes) /\
  Sdk.md_bestOffer (Sdk.fetchTokenMarketData offerRes listingRes)
  = Sdk.md_bestOffer (Sdk.fetchTokenMarketData offerRes listingRes') /\
  Sdk.md_bestOfferOrderHash (Sdk.fetchTokenMarketData offerRes listingRes)
  = Sdk.md_bestOfferOrderHash (Sdk.fetchTokenMarketData offerRes listingRes') /\
  (forall e, Sdk.md_bestOffer (Sdk.fetchTokenMarketData (inl e) listingRes) = zero).
Proof.
  unfold Sdk.fetchTokenMarketData.
  destruct offerRes as [e|[offer|]]; [| destruct (Sdk.priceOf (Sdk.price offer)) |];
    (destruct offerRes' as [e1|[offer1|]];
     [| destruct (Sdk.priceOf (Sdk.price offer1)) |]);
    (destruct listingRes as [e'|[listing|]];
     [| destruct (Sdk.priceOf (Sdk.listing_price listing)) |]);
    (destruct listingRes' as [e2|[listing2|]];
     [| destruct (Sdk.priceOf (Sdk.listing_price listing2)) |]);
    done.
Qed.

(** X13. After enrichment, in both variants, every item has a defined
    [isListed], and [listPrice] is defined exactly when [isListed] is
    true. In the REST variant an item carries an order hash or a protocol
    address only if its [bestOffer] is the price of an offer that the
    marketplace returned for it. *)
Theorem enriched_listing_consistent :
  (forall api sched onProgress items m its,
     fair sched ->
     view (heap m) items = Some its ->
     exists r m' out,
       RestPipeline.enrichWithMarketData api sched onProgress items m = Returned (r, m') /\
       view (heap m') r = Some out /\
       forall j it', out !! j = Some it' ->
         is_Some (isListed it') /\
         (isListed it' = Some true <-> is_Some (listPrice it')) /\
         (is_Some (bestOfferOrderHash it') \/ is_Some (bestOfferProtocolAddress it') ->
          exists p, Rest.offer_at (Rest.best_offer_endpoint api j (id it')) p /\
                    bestOffer it' = p)) /\
  (forall api sched onProgress items m its,
     fair sched ->
     view (heap m) items = Some its ->
     exists r m' out,
       SdkPipeline.enrichWithMarketData api sched onProgress items m = Returned (r, m') /\
       view (heap m') r = Some out /\
       forall j it', out !! j = Some it' ->
         is_Some (isListed it') /\
         (isListed it' = Some true <-> is_Some (listPrice it'))).
Proof.
  split; intros api sched onProgress items m its Hfair Hview.
  - destruct (rest_enrich_spec api sched onProgress items m its Hfair Hview)
      as (r & m' & Hrun & _ & _ & Hres & _).
    exists r, m', (imap (RestPipeline.enrichedItem api) its).
    split; [done|]. split; [done|]. intros j it' Hj.
    rewrite list_lookup_imap in Hj.
    destruct (its !! j) as [it|]; [|discriminate]. injection Hj as <-.
    simpl. split; [eauto|]. split.
    + rewrite <- fetchBestListing_listed_iff. split; congruence.
    + apply fetchBestOffer_from_offer.
  - destruct (sdk_enrich_spec api sched onProgress items m its Hfair Hview)
      as (r & m' & Hrun & _ & _ & Hres & _).
    exists r, m', (imap (SdkPipeline.enrichedItem api) its).
    split; [done|]. split; [done|]. intros j it' Hj.
    rewrite list_lookup_imap in Hj.
    destruct (its !! j) as [it|]; [|discriminate]. injection Hj as <-.
    simpl. split; [eauto|].
    rewrite <- fetchTokenMarketData_listed_iff. split; congruence.
Qed.

(** X14. The progress callback is optional and has no influence on the
    result: without it no call is made, and the returned list is the one
    obtained with it. *)
Theorem callback_is_optional :
  (forall api sched items m its,
     fair sched ->
     view (heap m) items = Some its ->
     exists r m' r' m'',
       RestPipeline.enrichWithMarketData api sched false items m = Returned (r, m') /\
       calls m' = calls m /\
       RestPipeline.enrichWithMarketData api sched true items m = Returned (r', m'') /\
       view (heap m') r = view (heap m'') r') /\
  (forall api sched items m its,
     fair sched ->
     view (heap m) items = Some its ->
     exists r m' r' m'',
       SdkPipeline.enrichWithMarketData api sched false items m = Returned (r, m') /\
       calls m' = calls m /\
       SdkPipeline.enrichWithMarketData api sched true items m = Returned (r', m'') /\
       view (heap m') r = view (heap m'') r').
Proof.
  split; intros api sched items m its Hfair Hview.
  - destruct (rest_enrich_spec api sched false items m its Hfair Hview)
      as (r & m' & Hrun & _ & _ & Hres & _ & new & Hcalls & ->).
    destruct (rest_enrich_spec api sched true items m its Hfair Hview)
      as (r' & m'' & Hrun' & _ & _ & Hres' & _).
    exists r, m', r', m''. rewrite app_nil_r in Hcalls. by rewrite Hres, Hres'.
  - destruct (sdk_enrich_spec api sched false items m its Hfair Hview)
      as (r & m' & Hrun & _ & _ & Hres & _ & new & Hcalls & ->).
    destruct (sdk_enrich_spec api sched true items m its Hfair Hview)
      as (r' & m'' & Hrun' & _ & _ & Hres' & _).
    exists r, m', r', m''. rewrite app_nil_r in Hcalls. by rewrite Hres, Hres'.
Qed.

Lemma imap_imap_ext (f g : nat -> CanvasItem -> CanvasItem) its :
  (forall j it, f j (g j it) = f j it) -> imap f (imap g its) = imap f its.
Proof.
  intros Hfg. apply list_eq. intros j. rewrite !list_lookup_imap.
  destruct (its !! j); simpl; [|done]. by rewrite Hfg.
Qed.

(** X15. A refresh overwrites the market data of the run before: enriching
    the list returned by an earlier enrichment gives what enriching the
    original list would give with the answers of the second run, and the
    list returned by the first run is left as it was. *)
Theorem refresh_overwrites :
  (forall api1 api2 sched1 sched2 onProgress1 onProgress2 items m its,
     fair sched1 -> fair sched2 ->
     view (heap m) items = Some its ->
     exists r1 m1 r2 m2,
       RestPipeline.enrichWithMarketData api1 sched1 onProgress1 items m
       = Returned (r1, m1) /\
       RestPipeline.enrichWithMarketData api2 sched2 onProgress2 r1 m1
       = Returned (r2, m2) /\
       view (heap m2) r2 = Some (imap (RestPipeline.enrichedItem api2) its) /\
       view (heap m2) r1 = Some (imap (RestPipeline.enrichedItem api1) its)) /\
  (forall api1 api2 sched1 sched2 onProgress1 onProgress2 items m its,
     fair sched1 -> fair sched2 ->
     view (heap m) items = Some its ->
     exists r1 m1 r2 m2,
       SdkPipeline.enrichWithMarketData api1 sched1 onProgress1 items m
       = Returned (r1, m1) /\
       SdkPipeline.enrichWithMarketData api2 sched2 onProgress2 r1 m1
       = Returned (r2, m2) /\
       view (heap m2) r2 = Some (imap (SdkPipeline.enrichedItem api2) its) /\
       view (heap m2) r1 = Some (imap (SdkPipeline.enrichedItem api1) its)).
Proof.
  split; intros api1 api2 sched1 sched2 op1 op2 items m its Hfair1 Hfair2 Hview.
  - destruct (rest_enrich_spec api1 sched1 op1 items m its Hfair1 Hview)
      as (r1 & m1 & Hrun1 & _ & _ & Hres1 & _).
    destruct (rest_enrich_spec api2 sched2 op2 r1 m1 _ Hfair2 Hres1)
      as (r2 & m2 & Hrun2 & Hsub & _ & Hres2 & _).
    exists r1, m1, r2, m2. split; [done|]. split; [done|]. split.
    + rewrite Hres2. f_equal. by apply imap_imap_ext.
    + by eapply view_weaken.
  - destruct (sdk_enrich_spec api1 sched1 op1 items m its Hfair1 Hview)
      as (r1 & m1 & Hrun1 & _ & _ & Hres1 & _).
    destruct (sdk_enrich_spec api2 sched2 op2 r1 m1 _ Hfair2 Hres1)
      as (r2 & m2 & Hrun2 & Hsub & _ & Hres2 & _).
    exists r1, m1, r2, m2. split; [done|]. split; [done|]. split.
    + rewrite Hres2. f_equal. by apply imap_imap_ext.
    + by eapply view_weaken.
Qed.

(** X16. On an empty list enrichment returns a new empty list and never
    calls the progress callback. *)
Theorem enrichment_of_nothing :
  (forall api sched onProgress items m,
     fair sched ->
     view (heap m) items = Some [] ->
     exists r m',
       RestPipeline.enrichWithMarketData api sched onProgress items m = Returned (r, m') /\
       view (heap m') r = Some [] /\ r <> items /\ calls m' = calls m) /\
  (forall api sched onProgress items m,
     fair sched ->
     view (heap m) items = Some [] ->
     exists r m',
       SdkPipeline.enrichWithMarketData api sched onProgress items m = Returned (r, m') /\
       view (heap m') r = Some [] /\ r <> items /\ calls m' = calls m).
Proof.
  assert (Hnone : forall f B h0 (new : list (loc * gmap loc Cell)) (b : bool),
            (0 < B)%nat ->
            (if b then progress_ok f B h0 [] 0 new else new = []) -> new = []).
  { intros f B h0 new [] HB Hnew; [|done]. destruct Hnew as [Hlen _].
    simpl in Hlen. rewrite ceil_div_0 in Hlen by done. by destruct new. }
  assert (Hne : forall (m : Mem) items l,
            view (heap m) items = Some [] -> heap m !! l = None -> l <> items).
  { intros m items l Hv Hl ->. unfold view in Hv. by rewrite Hl in Hv. }
  split; intros api sched onProgress items m Hfair Hview.
  - destruct (rest_enrich_spec api sched onProgress items m [] Hfair Hview)
      as (r & m' & Hrun & _ & Hr & Hres & _ & new & Hcalls & Hnew).
    exists r, m'. split; [done|]. split; [done|]. split; [by eapply Hne|].
    apply Hnone in Hnew; [|lia]. subst new. by rewrite app_nil_r in Hcalls.
  - destruct (sdk_enrich_spec api sched onProgress items m [] Hfair Hview)
      as (r & m' & Hrun & _ & Hr & Hres & _ & new & Hcalls & Hnew).
    exists r, m'. split; [done|]. split; [done|]. split; [by eapply Hne|].
    apply Hnone in Hnew; [|lia]. subst new. by rewrite app_nil_r in Hcalls.
Qed.

End Fetch.

Lemma enriched_listing_consistent_witness :
  exists r m' out,
    RestPipeline.enrichWithMarketData (H := Scenario.runtime) Scenario.market
      Scenario.in_order true Scenario.owned Scenario.memory = Returned (r, m') /\
    view (heap m') r = Some out /\
    Forall (fun it' => isListed it' = Some true <-> is_Some (listPrice it')) out.
Proof.
  destruct (enriched_listing_consistent (H := Scenario.runtime)) as [Hrest _].
  destruct (Hrest Scenario.market Scenario.in_order true Scenario.owned Scenario.memory
              [Scenario.token701; Scenario.token703] fair_in_order eq_refl)
    as (r & m' & out & Hrun & Hview & Hout).
  exists r, m', out. split; [exact Hrun|]. split; [exact Hview|].
  apply Forall_lookup. intros j it' Hj. by destruct (Hout j it' Hj) as (_ & Hiff & _).
Defined.

Lemma callback_is_optional_witness :
  exists r m',
    SdkPipeline.enrichWithMarketData (H := Scenario.runtime) Scenario.sdk_market
      Scenario.reversed false Scenario.owned Scenario.memory = Returned (r, m') /\
    calls m' = [].
Proof.
  destruct (callback_is_optional (H := Scenario.runtime)) as [_ Hsdk].
  destruct (Hsdk Scenario.sdk_market Scenario.reversed Scenario.owned Scenario.memory
              [Scenario.token701; Scenario.token703] fair_reversed eq_refl)
    as (r & m' & r' & m'' & Hrun & Hcalls & _).
  exists r, m'. split; [exact Hrun|exact Hcalls].
Defined.

Lemma refresh_overwrites_witness :
  exists r1 m1 r2 m2,
    RestPipeline.enrichWithMarketData (H := Scenario.runtime) Scenario.market
      Scenario.in_order false Scenario.owned Scenario.memory = Returned (r1, m1) /\
    RestPipeline.enrichWithMarketData (H := Scenario.runtime) MoreScenario.quiet_market
      Scenario.reversed false r1 m1 = Returned (r2, m2) /\
    option_map (map isListed) (view (heap m2) r1) = Some [Some true; Some false] /\
    option_map (map isListed) (view (heap m2) r2) = Some [Some false; Some false].
Proof.
  destruct (refresh_overwrites (H := Scenario.runtime)) as [Hrest _].
  destruct (Hrest Scenario.market MoreScenario.quiet_market Scenario.in_order
              Scenario.reversed false false Scenario.owned Scenario.memory
              [Scenario.token701; Scenario.token703] fair_in_order fair_reversed eq_refl)
    as (r1 & m1 & r2 & m2 & Hrun1 & Hrun2 & Hres2 & Hres1).
  exists r1, m1, r2, m2. split; [exact Hrun1|]. split; [exact Hrun2|].
  rewrite Hres1, Hres2. split; reflexivity.
Defined.

Lemma enrichment_of_nothing_witness :
  exists r m',
    RestPipeline.enrichWithMarketData (H := Scenario.runtime) Scenario.market
      Scenario.in_order true MoreScenario.nothing MoreScenario.empty_memory
    = Returned (r, m') /\
    view (heap m') r = Some [] /\ r <> MoreScenario.nothing /\ calls m' = [].
Proof.
  destruct (enrichment_of_nothing (H := Scenario.runtime)) as [Hrest _].
  exact (Hrest Scenario.market Scenario.in_order true MoreScenario.nothing
           MoreScenario.empty_memory fair_in_order eq_refl).
Defined.

End EnrichmentMoreFacts.

(** ** The confirm handlers of the portfolio list, continued *)

Module HandlerMoreFacts.
Import CanvasList.

Section Handlers.
Context `{JsRuntime}.

(** X17. Confirming the listing modal with an empty price, a price that
    is not a number, or a price that is not above zero only shows the
    error toast "Please enter a valid price": nothing is sent to the
    marketplace or the wallet and the state is unchanged. *)
Theorem invalid_price_rejected ctx st modal :
  confirmable ctx st modal ->
  listingPrice st = "" \/ isNaN (Number (listingPrice st)) = true
  \/ le_zero (Number (listingPrice st)) = true ->
  handleListConfirm ctx st = (st, [ShowToast "Please enter a valid price" error]).
Proof.
  intros [Haddr Hmodal] Hprice. unfold handleListConfirm. rewrite Hmodal, Haddr.
  destruct Hprice as [-> | [-> | ->]]; simpl; [done| |];
    by rewrite ?orb_true_r.
Qed.

(** X18. Neither handler leaves the component in the processing state:
    started from a render that is not processing, the run ends with
    [isProcessing] false, and with an empty step text if it was empty. *)
Theorem processing_flag_released ctx st :
  isProcessing st = false ->
  isProcessing (handleListConfirm ctx st).1 = false /\
  isProcessing (handleAcceptConfirm ctx st).1 = false /\
  (processingStep st = "" ->
   processingStep (handleListConfirm ctx st).1 = "" /\
   processingStep (handleAcceptConfirm ctx st).1 = "").
Proof.
  intros Hidle. unfold handleListConfirm, handleAcceptConfirm, closeModal.
  rewrite Hidle.
  destruct (activeModal st) as [modal|];
    destruct (truthy (address ctx)); [|done..].
  destruct (negb (truthy (Some (listingPrice st))) || _ || _);
    destruct (negb (truthy (bestOfferOrderHash (item modal))));
    destruct (provider_found ctx);
    destruct (createListing_result ctx) as [?|?];
    destruct (fulfillOffer_result ctx) as [?|?]; done.
Qed.

(** X19. An accepted offer: when [fulfillOffer] resolves, exactly the
    items with the sold token's id are removed, the others keep their
    order, the modal is closed and the price field cleared. The only call
    to the marketplace is one [fulfillOffer] with the caller's address,
    the item's order hash and the Seaport 1.6 address, whatever protocol
    address the item carries. *)
Theorem accepted_offer_removes_item ctx st modal account orderHash txHash :
  activeModal st = Some modal ->
  address ctx = Some account -> account <> "" ->
  bestOfferOrderHash (item modal) = Some orderHash -> orderHash <> "" ->
  provider_found ctx = true ->
  fulfillOffer_result ctx = inr txHash ->
  isProcessing st = false ->
  let st' := (handleAcceptConfirm ctx st).1 in
  let effects := (handleAcceptConfirm ctx st).2 in
  items st' = List.filter (fun it => negb (bool_decide (id it = id (item modal)))) (items st) /\
  (forall it, it ∈ items st' <-> it ∈ items st /\ id it <> id (item modal)) /\
  activeModal st' = None /\ listingPrice st' = "" /\
  List.filter (fun e => match e with FulfillOffer _ _ _ | CreateListing _ _ _ _ => true
                                | _ => false end) effects
  = [FulfillOffer account orderHash "0x0000000000000068F116a894984e2DB1123eB395"].
Proof.
  intros Hmodal Haddr Hacc Hhash Hnonempty Hprov Hres Hidle. simpl.
  assert (Ha : truthy (Some account) = true) by (destruct account; done).
  assert (Hh : truthy (Some orderHash) = true) by (destruct orderHash; done).
  unfold handleAcceptConfirm, closeModal.
  rewrite Hmodal, Haddr, Ha, Hhash, Hh, Hprov, Hres, Hidle. simpl.
  split; [done|]. split.
  - intros it. rewrite list_elem_of_In, List.filter_In, <- list_elem_of_In.
    rewrite negb_true_iff, bool_decide_eq_false. tauto.
  - split; [done|]. split; [done|].
    destruct txHash; [done|]. simpl. by destruct (openUrl_resolves ctx).
Qed.

(** X20. A created listing: when [createListing] resolves, the list keeps
    its length and its ids in order; every item with the modal's id is
    listed at [Number(listingPrice)] and keeps its other fields, every
    other item is untouched; the modal is closed. The only call to the
    marketplace is one [createListing] with the caller's address, the
    token id, that price and the days of the selected duration. *)
Theorem created_listing_updates_item ctx st modal account :
  activeModal st = Some modal ->
  address ctx = Some account -> account <> "" ->
  listingPrice st <> "" ->
  isNaN (Number (listingPrice st)) = false ->
  le_zero (Number (listingPrice st)) = false ->
  provider_found ctx = true ->
  createListing_result ctx = inr tt ->
  isProcessing st = false ->
  let st' := (handleListConfirm ctx st).1 in
  let effects := (handleListConfirm ctx st).2 in
  map id (items st') = map id (items st) /\
  (forall j it, items st !! j = Some it ->
     exists it', items st' !! j = Some it' /\
       if decide (id it = id (item modal))
       then isListed it' = Some true /\
            listPrice it' = Some (Number (listingPrice st)) /\
            day it' = day it /\ imageUrl it' = imageUrl it /\
            lastSale it' = lastSale it /\ bestOffer it' = bestOffer it /\
            bestOfferOrderHash it' = bestOfferOrderHash it /\
            bestOfferProtocolAddress it' = bestOfferProtocolAddress it
       else it' = it) /\
  activeModal st' = None /\
  List.filter (fun e => match e with FulfillOffer _ _ _ | CreateListing _ _ _ _ => true
                                | _ => false end) effects
  = [CreateListing account (id (item modal)) (Number (listingPrice st))
       (days (listingDuration st))].
Proof.
  intros Hmodal Haddr Hacc Hprice Hnan Hpos Hprov Hres Hidle. simpl.
  assert (Ha : truthy (Some account) = true) by (destruct account; done).
  assert (Hp : truthy (Some (listingPrice st)) = true)
    by (destruct (listingPrice st); done).
  unfold handleListConfirm, closeModal.
  rewrite Hmodal, Haddr, Ha, Hp, Hnan, Hpos, Hprov, Hres, Hidle. simpl.
  split.
  - rewrite <- list_fmap_compose. apply list_fmap_ext. intros j it _. simpl.
    by destruct (decide _).
  - split; [|done]. intros j it Hj. rewrite list_lookup_fmap, Hj. simpl.
    eexists. split; [done|]. by destruct (decide _).
Qed.


(** X22. Without an address neither handler touches the state or the
    marketplace; it asks the wallet to connect. With an address, one run
    of a handler makes at most one marketplace call. *)
Theorem confirm_makes_one_call ctx st :
  (truthy (address ctx) = false ->
   handleListConfirm ctx st = (st, [Connect]) /\
   handleAcceptConfirm ctx st = (st, [Connect])) /\
  let marketplace e :=
    match e with FulfillOffer _ _ _ | CreateListing _ _ _ _ => true | _ => false end in
  (length (List.filter marketplace (handleListConfirm ctx st).2) <= 1)%nat /\
  (length (List.filter marketplace (handleAcceptConfirm ctx st).2) <= 1)%nat.
Proof.
  unfold handleListConfirm, handleAcceptConfirm. split.
  - intros ->. by destruct (activeModal st).
  - cbv zeta. destruct (activeModal st) as [modal|];
      destruct (truthy (address ctx)); [|simpl; lia..].
    destruct (negb (truthy (Some (listingPrice st))) || _ || _);
      destruct (negb (truthy (bestOfferOrderHash (item modal))));
      destruct (provider_found ctx);
      destruct (createListing_result ctx) as [?|?];
      destruct (fulfillOffer_result ctx) as [?|[|? ?]];
      destruct (openUrl_resolves ctx); simpl; lia.
Qed.

End Handlers.

Lemma invalid_price_rejected_witness :
  handleListConfirm (H := Scenario.runtime) Scenario.connected MoreScenario.list_701_free
  = (MoreScenario.list_701_free, [ShowToast "Please enter a valid price" error]).
Proof.
  apply (invalid_price_rejected (H := Scenario.runtime) Scenario.connected
           MoreScenario.list_701_free
           {| type := list_modal; item := Scenario.token701 |}).
  - split; reflexivity.
  - right. right. reflexivity.
Defined.

Lemma processing_flag_released_witness :
  isProcessing
    (handleListConfirm (H := Scenario.runtime) MoreScenario.declined
       MoreScenario.list_701).1 = false.
Proof.
  apply (processing_flag_released (H := Scenario.runtime) MoreScenario.declined
           MoreScenario.list_701). reflexivity.
Defined.

Lemma accepted_offer_removes_item_witness :
  items (handleAcceptConfirm (H := Scenario.runtime) Scenario.connected
           MoreScenario.accept_701).1
  = [Scenario.token703].
Proof.
  refine (proj1 (accepted_offer_removes_item (H := Scenario.runtime) Scenario.connected
                   MoreScenario.accept_701
                   {| type := accept_modal; item := MoreScenario.offered_701 |}
                   "0x52908400098527886E0F7030069857D2E4169EE7" "0x9a11" "0x7c5e"
                   eq_refl eq_refl _ eq_refl _ eq_refl eq_refl eq_refl));
    discriminate.
Defined.

Lemma created_listing_updates_item_witness :
  map isListed
    (items (handleListConfirm (H := Scenario.runtime) Scenario.connected
              MoreScenario.list_701).1)
  = [Some true; Some false].
Proof.
  destruct (created_listing_updates_item (H := Scenario.runtime) Scenario.connected
              MoreScenario.list_701
              {| type := list_modal; item := Scenario.token701 |}
              "0x52908400098527886E0F7030069857D2E4169EE7"
              eq_refl eq_refl ltac:(discriminate) ltac:(discriminate)
              eq_refl eq_refl eq_refl eq_refl eq_refl)
    as (_ & Hitems & _).
  destruct (Hitems 0%nat _ eq_refl) as (a & Ha & Hlisted & _).
  destruct (Hitems 1%nat _ eq_refl) as (b & Hb & Hsame).
  simpl in Hsame.
  destruct (items _) as [|a' [|b' [|? ?]]] eqn:Hits in Ha, Hb |- *; try discriminate.
  injection Ha as ->. injection Hb as ->. simpl. by rewrite Hlisted, Hsame.
Defined.


Lemma confirm_makes_one_call_witness :
  handleAcceptConfirm (H := Scenario.runtime) MoreScenario.no_account
    MoreScenario.accept_701
  = (MoreScenario.accept_701, [Connect]).
Proof.
  destruct (confirm_makes_one_call (H := Scenario.runtime) MoreScenario.no_account
              MoreScenario.accept_701) as [Hconnect _].
  apply Hconnect. reflexivity.
Defined.

End HandlerMoreFacts.

(** ** Floor listings and the "Keep exploring" section *)

Module FloorFacts.
Import Floor.

Section Rest.
Context `{JsRuntime}.
Variable shuffle : Shuffle.

Lemma collect_Some data acc :
  Forall (fun listing => is_Some (RestFloor.visit listing)) data ->
  RestFloor.collect data acc
  = Some (acc ++ omap (fun listing => RestFloor.visit listing ≫= (fun x => x)) data).
Proof.
  intros Hall. revert acc. induction Hall as [|listing rest [v Hv] _ IH]; intros acc.
  - by rewrite app_nil_r.
  - simpl. rewrite Hv. simpl. destruct v as [l|]; rewrite IH; [|done].
    by rewrite <- app_assoc.
Qed.

Lemma collect_None data acc :
  Exists (fun listing => RestFloor.visit listing = None) data ->
  RestFloor.collect data acc = None.
Proof.
  intros Hsome. revert acc. induction Hsome as [listing rest Hv|listing rest _ IH];
    intros acc; simpl.
  - by rewrite Hv.
  - by destruct (RestFloor.visit listing) as [[l|]|].
Qed.

Lemma omap_length_le {A B} (f : A -> option B) (l : list A) :
  (length (omap f l) <= length l)%nat.
Proof.
  induction l as [|x l IH]; [done|].
  change (omap f (x :: l))
    with (match f x with Some y => y :: omap f l | None => omap f l end).
  destruct (f x); simpl; lia.
Qed.

Lemma visit_cases data :
  Forall (fun listing => is_Some (RestFloor.visit listing)) data \/
  Exists (fun listing => RestFloor.visit listing = None) data.
Proof.
  induction data as [|listing rest [IH|IH]]; [by left| |by right; right].
  destruct (RestFloor.visit listing) as [v|] eqn:Hv; [left|right; by left].
  constructor; [by rewrite Hv|done].
Qed.

Lemma visit_pushed listing l :
  RestFloor.visit listing = Some (Some l) ->
  truthy_number (priceEth l) = true /\ tokenId l <> "0" /\
  tokenId l = default "0" (RestFloor.identifierOrCriteria listing) /\
  orderHash l = RestFloor.order_hash listing /\
  protocolAddress l = RestFloor.protocol_address listing /\
  imageUrl l = "https://basepaint.xyz/api/art/image?day=" +:+ tokenId l.
Proof.
  unfold RestFloor.visit. destruct (RestFloor.priceOf listing) as [p|]; [|done]. simpl.
  destruct (truthy_number p) eqn:Hp; simpl; [|done].
  destruct (bool_decide _) eqn:Hid; [done|]. apply bool_decide_eq_false in Hid.
  intros [= <-]. simpl. by rewrite Hp.
Qed.

Lemma rest_floor_cases res :
  rearranges shuffle ->
  RestFloor.fetchFloorListings shuffle res = [] \/
  exists data, res = Ok (inr data) /\
    Forall (fun listing => is_Some (RestFloor.visit listing))
      (default [] (RestFloor.listings data)) /\
    Permutation (RestFloor.fetchFloorListings shuffle res)
      (omap (fun listing => RestFloor.visit listing ≫= (fun x => x))
         (default [] (RestFloor.listings data))).
Proof.
  intros Hshuffle.
  unfold RestFloor.fetchFloorListings, RestFloor.fetchCollectionListings.
  destruct res as [e|status|[e|data]]; auto.
  destruct (visit_cases (default [] (RestFloor.listings data))) as [Hall|Hsome].
  - right. exists data. split; [done|]. split; [done|].
    rewrite collect_Some by done. simpl. apply Hshuffle.
  - left. by rewrite collect_None.
Qed.

Lemma elem_of_pushed (data : list RestFloor.ListingJson) l :
  l ∈ omap (fun listing => RestFloor.visit listing ≫= (fun x => x)) data <->
  exists listing, listing ∈ data /\ RestFloor.visit listing = Some (Some l).
Proof.
  rewrite list_elem_of_omap. split.
  - intros (listing & Hl & Hv). exists listing. split; [done|].
    destruct (RestFloor.visit listing) as [[l'|]|]; simpl in Hv; congruence.
  - intros (listing & Hl & Hv). exists listing. split; [done|]. by rewrite Hv.
Qed.

Lemma rest_floor_entry res l :
  rearranges shuffle ->
  l ∈ RestFloor.fetchFloorListings shuffle res ->
  exists data listing, res = Ok (inr data) /\
    listing ∈ default [] (RestFloor.listings data) /\
    RestFloor.visit listing = Some (Some l).
Proof.
  intros Hshuffle Hl.
  destruct (rest_floor_cases res Hshuffle) as [Hnil | (data & -> & _ & Hperm)].
  - rewrite Hnil in Hl. by apply elem_of_nil in Hl.
  - rewrite Hperm in Hl. apply elem_of_pushed in Hl as (listing & Hin & Hv). eauto.
Qed.

(** X23. The REST floor listings: what [fetchFloorListings] returns has at
    most as many entries as the response has listings; every entry has
    a price that is neither zero nor [NaN], a token id other than "0",
    the image of that token, and the order hash and protocol address of
    the listing it was read from. When every listing of the response can
    be read, the entries are exactly what the loop pushes, in some
    order. *)
Theorem rest_floor_listings res :
  rearranges shuffle ->
  let out := RestFloor.fetchFloorListings shuffle res in
  (forall l, l ∈ out ->
     truthy_number (priceEth l) = true /\ tokenId l <> "0" /\
     imageUrl l = "https://basepaint.xyz/api/art/image?day=" +:+ tokenId l /\
     exists data listing, res = Ok (inr data) /\
       listing ∈ default [] (RestFloor.listings data) /\
       orderHash l = RestFloor.order_hash listing /\
       protocolAddress l = RestFloor.protocol_address listing /\
       tokenId l = default "0" (RestFloor.identifierOrCriteria listing)) /\
  (forall data, res = Ok (inr data) ->
     (length out <= length (default [] (RestFloor.listings data)))%nat /\
     (Forall (fun listing => is_Some (RestFloor.visit listing))
        (default [] (RestFloor.listings data)) ->
      forall l, l ∈ out <->
        exists listing, listing ∈ default [] (RestFloor.listings data) /\
          RestFloor.visit listing = Some (Some l))).
Proof.
  intros Hshuffle out. split.
  - intros l Hl. apply rest_floor_entry in Hl as (data & listing & -> & Hin & Hv); [|done].
    apply visit_pushed in Hv as (Hp & Hid & Htok & Hoh & Hpa & Himg).
    split; [done|]. split; [done|]. split; [done|]. by exists data, listing.
  - intros data ->. split.
    + destruct (rest_floor_cases (Ok (inr data)) Hshuffle)
        as [Hnil | (data' & [= <-] & _ & Hperm)].
      * subst out. rewrite Hnil. simpl. lia.
      * subst out. rewrite Hperm. apply omap_length_le.
    + intros Hall l. rewrite <- elem_of_pushed. subst out.
      unfold RestFloor.fetchFloorListings, RestFloor.fetchCollectionListings.
      rewrite collect_Some by done. simpl. by rewrite (Hshuffle _).
Qed.

(** X24. One listing whose price cannot be converted empties the section:
    when [formatUnits] throws for any listing of the response,
    [fetchFloorListings] returns no listing at all. The same holds when
    the request fails or the body cannot be read. *)
Theorem unreadable_price_empties_floor res :
  (forall data listing,
     res = Ok (inr data) ->
     listing ∈ default [] (RestFloor.listings data) ->
     RestFloor.priceOf listing = None ->
     RestFloor.fetchFloorListings shuffle res = []) /\
  ((forall data, res <> Ok (inr data)) ->
   RestFloor.fetchFloorListings shuffle res = []).
Proof.
  unfold RestFloor.fetchFloorListings, RestFloor.fetchCollectionListings. split.
  - intros data listing -> Hin Hprice. rewrite collect_None; [done|].
    apply Exists_exists. exists listing. split; [done|].
    unfold RestFloor.visit. by rewrite Hprice.
  - intros Hno. destruct res as [e|status|[e|data]]; try done. by destruct (Hno data).
Qed.

End Rest.

Section Sdk.
Context `{JsRuntime}.
Variable shuffle : Shuffle.

Lemma sdk_floor_entry res l :
  rearranges shuffle ->
  l ∈ SdkFloor.fetchFloorListings shuffle res ->
  gt_zero (priceEth l) = true /\
  exists orders order, res = inr (Some orders) /\ order ∈ orders /\
    SdkFloor.toListing order = Some l.
Proof.
  intros Hshuffle. unfold SdkFloor.fetchFloorListings.
  destruct res as [e|[orders|]]; try (intros Hl; by apply elem_of_nil in Hl).
  destruct (mapM SdkFloor.toListing orders) as [mapped|] eqn:Hmap;
    [|intros Hl; by apply elem_of_nil in Hl].
  apply mapM_Some in Hmap. intros Hl. rewrite (Hshuffle _) in Hl.
  apply list_elem_of_In, List.filter_In in Hl as [Hl Hp].
  apply list_elem_of_In in Hl. split; [done|].
  apply list_elem_of_lookup in Hl as [j Hj].
  destruct (Forall2_lookup_r _ _ _ _ _ Hmap Hj) as (order & Ho & Hto).
  exists orders, order. split; [done|]. split; [|done].
  by eapply list_elem_of_lookup_2.
Qed.

(** X25. The SDK floor listings: what [fetchFloorListings] returns has at
    most as many entries as there are orders; every entry has a price
    above zero and is what the mapping makes of one of the orders. An
    order whose price cannot be converted, a rejected request or a page
    without orders gives the empty list. *)
Theorem sdk_floor_listings res :
  rearranges shuffle ->
  let out := SdkFloor.fetchFloorListings shuffle res in
  (forall l, l ∈ out ->
     gt_zero (priceEth l) = true /\
     exists orders order, res = inr (Some orders) /\ order ∈ orders /\
       SdkFloor.toListing order = Some l) /\
  (forall orders, res = inr (Some orders) -> (length out <= length orders)%nat) /\
  (forall orders order, res = inr (Some orders) -> order ∈ orders ->
     SdkFloor.toListing order = None -> out = []) /\
  ((forall orders, res <> inr (Some orders)) -> out = []).
Proof.
  intros Hshuffle out. split; [intros l Hl; by apply sdk_floor_entry|].
  subst out. unfold SdkFloor.fetchFloorListings.
  destruct res as [e|[orders|]]; [by repeat split| |by repeat split].
  destruct (mapM SdkFloor.toListing orders) as [mapped|] eqn:Hmap.
  - apply mapM_Some in Hmap. split; [|split].
    + intros orders' [= <-]. rewrite (Hshuffle _).
      etrans; [apply List.filter_length_le|]. by rewrite (Forall2_length _ _ _ Hmap).
    + intros orders' order [= <-] Hin Hnone.
      apply list_elem_of_lookup in Hin as [j Hj].
      destruct (Forall2_lookup_l _ _ _ _ _ Hmap Hj) as (l & _ & Hl). congruence.
    + intros Hno. by destruct (Hno orders).
  - repeat split; try done. simpl. lia.
Qed.

End Sdk.

Section Featured.
Context `{JsRuntime}.
Import FeaturedCanvases.

(** X26. A purchase: when [fulfillListing] resolves, exactly the listings
    with the bought order hash leave the list and the others keep their
    order; when no provider is found or the call is rejected the list
    is unchanged and one error toast is shown. Either way the purchase
    indicator is cleared and [isLoading] is untouched. *)
Theorem purchase_updates_list ctx item st account :
  address ctx = Some account -> account <> "" ->
  let st' := (handleBuy ctx item st).1 in
  let effects := (handleBuy ctx item st).2 in
  buyingId st' = None /\ isLoading st' = isLoading st /\
  (provider_found ctx = true ->
   forall txHash, fulfillListing_result ctx = inr txHash ->
     items st'
     = List.filter (fun i => negb (bool_decide (orderHash i = orderHash item))) (items st) /\
     (forall i, i ∈ items st' <-> i ∈ items st /\ orderHash i <> orderHash item) /\
     exists msg, effects
       = [FulfillListing account (orderHash item) (protocolAddress item);
          ShowToast msg CanvasList.success]) /\
  (provider_found ctx = false \/ (exists err, fulfillListing_result ctx = inl err) ->
   items st' = items st /\
   exists msg, List.filter (fun e => match e with ShowToast _ _ => true | _ => false end)
                 effects
               = [ShowToast msg CanvasList.error]).
Proof.
  intros Haddr Hacc. simpl.
  assert (Ha : truthy (Some account) = true) by (destruct account; done).
  unfold handleBuy. rewrite Haddr, Ha. simpl.
  split; [|split; [|split]].
  - by destruct (provider_found ctx); simpl; [destruct (fulfillListing_result ctx)|].
  - by destruct (provider_found ctx); simpl; [destruct (fulfillListing_result ctx)|].
  - intros -> txHash ->. simpl. split; [done|]. split; [|eauto].
    intros i. rewrite list_elem_of_In, List.filter_In, <- list_elem_of_In.
    rewrite negb_true_iff, bool_decide_eq_false. tauto.
  - intros [-> | [err ->]]; simpl; [eauto|].
    destruct (provider_found ctx); simpl; eauto.
Qed.

End Featured.

Lemma backwards_rearranges : rearranges MoreScenario.backwards.
Proof. intros l. apply reverse_Permutation. Qed.

Lemma rest_floor_listings_witness :
  Forall (fun l => truthy_number (priceEth l) = true /\ tokenId l <> "0")
    (RestFloor.fetchFloorListings (H := Scenario.runtime) MoreScenario.backwards
       MoreScenario.floor_page).
Proof.
  destruct (rest_floor_listings (H := Scenario.runtime) MoreScenario.backwards
              MoreScenario.floor_page backwards_rearranges) as [Hentries _].
  apply Forall_forall. intros l Hl.
  destruct (Hentries l Hl) as (Hprice & Htoken & _). split; [exact Hprice|exact Htoken].
Defined.

Lemma unreadable_price_empties_floor_witness :
  RestFloor.fetchFloorListings (H := Scenario.runtime) MoreScenario.backwards
    MoreScenario.unreadable_page = [].
Proof.
  destruct (unreadable_price_empties_floor (H := Scenario.runtime) MoreScenario.backwards
              MoreScenario.unreadable_page) as [Hbroken _].
  apply (Hbroken _ MoreScenario.unreadable_listing eq_refl); [|reflexivity].
  simpl. apply elem_of_cons. right. apply elem_of_cons. by left.
Defined.

Lemma sdk_floor_listings_witness :
  Forall (fun l => gt_zero (priceEth l) = true)
    (SdkFloor.fetchFloorListings (H := Scenario.runtime) MoreScenario.backwards
       MoreScenario.floor_orders) /\
  (length (SdkFloor.fetchFloorListings (H := Scenario.runtime) MoreScenario.backwards
             MoreScenario.floor_orders) <= 2)%nat.
Proof.
  destruct (sdk_floor_listings (H := Scenario.runtime) MoreScenario.backwards
              MoreScenario.floor_orders backwards_rearranges) as (Hentries & Hlen & _).
  split.
  - apply Forall_forall. intros l Hl. by destruct (Hentries l Hl) as [Hp _].
  - exact (Hlen _ eq_refl).
Defined.

Lemma purchase_updates_list_witness :
  FeaturedCanvases.items
    (FeaturedCanvases.handleBuy (H := Scenario.runtime) MoreScenario.buyer
       MoreScenario.bought MoreScenario.exploring).1
  = [MoreScenario.other] /\
  FeaturedCanvases.buyingId
    (FeaturedCanvases.handleBuy (H := Scenario.runtime) MoreScenario.buyer
       MoreScenario.bought MoreScenario.exploring).1
  = None.
Proof.
  destruct (purchase_updates_list (H := Scenario.runtime) MoreScenario.buyer
              MoreScenario.bought MoreScenario.exploring
              "0x52908400098527886E0F7030069857D2E4169EE7" eq_refl ltac:(discriminate))
    as (Hid & _ & Hbought & _).
  split; [|exact Hid].
  by destruct (Hbought eq_refl _ eq_refl) as [-> _].
Defined.

End FloorFacts.

(** ** The mint panel *)

Module MintFacts.
Import MintSection.
#[local] Open Scope Z_scope.

(** X27. The quantity never drops below one: whatever the user does to the
    panel, starting from a quantity of at least one, the quantity stays
    at least one; decrementing at one leaves it at one, and closing the
    modal sets it back to one. *)
Theorem quantity_at_least_one (actions : list Action) (st : State) :
  1 <= quantity st ->
  1 <= quantity (fold_left step actions st) /\
  (quantity st = 1 -> quantity (handleDecrement st) = 1) /\
  quantity (closeModal st) = 1 /\
  quantity (handleDecrement (handleIncrement st)) = quantity st.
Proof.
  intros Hq. split; [|split; [|split]].
  - revert st Hq. induction actions as [|a actions IH]; intros st Hq; [done|].
    simpl. apply IH. destruct a; simpl; lia.
  - simpl. lia.
  - done.
  - simpl. lia.
Qed.



Lemma fmt_two_digits n : 0 <= n < 100 -> String.length (fmt n) = 2%nat.
Proof.
  intros Hn.
  assert (Hall : forallb (fun k => Nat.eqb (String.length (fmt (Z.of_nat k))) 2)
                   (seq 0 100) = true) by (vm_compute; reflexivity).
  rewrite forallb_forall in Hall.
  specialize (Hall (Z.to_nat n)). rewrite Z2Nat.id in Hall by lia.
  apply Nat.eqb_eq, Hall, in_seq. lia.
Qed.

Lemma length_append (s t : string) :
  String.length (s +:+ t) = (String.length s + String.length t)%nat.
Proof. induction s as [|c s IH]; simpl; [done|]. by rewrite IH. Qed.

(** X29. The countdown: for a mint that ends [diff > 0] seconds from now,
    [tick] prints hours, minutes and seconds that add up to [diff], with
    minutes and seconds below 60, makes no new fetch, and the text has
    the eight characters of "hh:mm:ss" when fewer than 100 hours are
    left. Once the end has passed it prints "00:00:00" and fetches
    again. *)
Theorem countdown_adds_up (ends nowMs : Z) :
  ends <> 0 ->
  let diff := ends - nowMs / 1000 in
  (0 < diff ->
   exists h m s,
     tick (Some ends) nowMs = Some (fmt h +:+ ":" +:+ fmt m +:+ ":" +:+ fmt s, false) /\
     h * 3600 + m * 60 + s = diff /\ 0 <= h /\ 0 <= m < 60 /\ 0 <= s < 60 /\
     (diff < 360000 ->
      String.length (fmt h +:+ ":" +:+ fmt m +:+ ":" +:+ fmt s) = 8%nat)) /\
  (diff <= 0 -> tick (Some ends) nowMs = Some ("00:00:00", true)).
Proof.
  intros Hends diff. unfold tick. apply Z.eqb_neq in Hends. rewrite Hends.
  fold diff. split.
  - intros Hpos. destruct (diff <=? 0) eqn:Hle; [lia|].
    exists (diff / 3600), (Z.rem diff 3600 / 60), (Z.rem diff 60).
    split; [done|].
    rewrite !Z.rem_mod_nonneg by lia.
    pose proof (Z.div_mod diff 3600 ltac:(lia)) as H1.
    pose proof (Z.mod_pos_bound diff 3600 ltac:(lia)) as B1.
    pose proof (Z.div_mod (diff mod 3600) 60 ltac:(lia)) as H2.
    pose proof (Z.mod_pos_bound (diff mod 3600) 60 ltac:(lia)) as B2.
    assert (H3 : (diff mod 3600) mod 60 = diff mod 60).
    { apply Z.mod_mod_divide. exists 60. lia. }
    pose proof (Z.div_pos diff 3600 ltac:(lia) ltac:(lia)) as Hh.
    pose proof (Z.div_pos (diff mod 3600) 60 ltac:(lia) ltac:(lia)) as Hm.
    assert (Hm' : diff mod 3600 / 60 < 60)
      by (apply Z.div_lt_upper_bound; lia).
    pose proof (Z.mod_pos_bound diff 60 ltac:(lia)) as B3.
    split; [lia|]. split; [lia|]. split; [lia|]. split; [lia|].
    intros Hsmall.
    assert (Hh' : diff / 3600 < 100) by (apply Z.div_lt_upper_bound; lia).
    rewrite !length_append, !fmt_two_digits by lia. done.
  - intros Hneg. destruct (diff <=? 0) eqn:Hle; [done|lia].
Qed.


Lemma quantity_at_least_one_witness :
  1 <= quantity (fold_left step [Decrement; Increment; Decrement; Decrement] initial).
Proof.
  apply (quantity_at_least_one [Decrement; Increment; Decrement; Decrement] initial).
  simpl. lia.
Defined.


Lemma countdown_adds_up_witness :
  exists h m s,
    tick (Some 1762188000) 1762128000000
    = Some (fmt h +:+ ":" +:+ fmt m +:+ ":" +:+ fmt s, false) /\
    h * 3600 + m * 60 + s = 60000.
Proof.
  destruct (countdown_adds_up 1762188000 1762128000000) as [Hrun _]; [lia|].
  destruct Hrun as (h & m & s & Htick & Hsum & _); [reflexivity|].
  exists h, m, s. split; [exact Htick|exact Hsum].
Defined.


End MintFacts.
